(** * one-frame-video-conv: the conversion component (src/App.tsx)

    A shallow embedding of the [App] component: the size computation of the
    MP4 path, the derivation of the result name, the two per-file
    conversions ([convertImageToMP4], [convertImageToVideo]) as programs
    over an explicit platform, and [handleFileUpload] over the component
    state and the store of result records. *)

From Stdlib Require Import ZArith NArith Lia Bool String Ascii List.
From stdpp Require Import base option list gmap strings.

Local Open Scope Z_scope.

(** ** JavaScript numbers used by the size computation

    [img.width] and [img.height] are WebIDL [unsigned long] values, so the
    numbers met here are integers.  The only non-integer intermediate is the
    quotient handed to [Math.round]. *)

Module JS.

(** [a % b] of JavaScript: the remainder has the sign of the dividend. *)
Definition rem (a b : Z) : Z := Z.rem a b.

(** [Math.round(a / b)] for integers [a] and [b > 0]: the nearest integer
    of the quotient, a tie going up, that is [floor (a/b + 1/2)].  The
    quotient of the source is an IEEE double; for [0 <= a] and
    [b < 2^32] a quotient that is not a tie lies at least [1/(2b)] away
    from every half-integer (lemma [round_margin] below), far more than
    the rounding error of the division, so the double rounds like the
    exact quotient. *)
Definition Math_round_div (a b : Z) : Z := (2 * a + b) / (2 * b).

End JS.

(** The decoded image, as far as the conversions look at it. *)
Record Image := { img_width : N; img_height : N }.

Definition MAX_SIZE : Z := 1280.

(** [width = width % 2 === 0 ? width : width - 1] (lines 57-58). *)
Definition forceEven (n : Z) : Z :=
  if JS.rem n 2 =? 0 then n else n - 1.

(** Step 1 of the size computation (lines 42-54): the long-edge clamp. *)
Definition clampLongEdge (width height : Z) : Z * Z :=
  if (width >? MAX_SIZE) || (height >? MAX_SIZE) then
    if width >? height then
      (MAX_SIZE, JS.Math_round_div (height * MAX_SIZE) width)
    else
      (JS.Math_round_div (width * MAX_SIZE) height, MAX_SIZE)
  else (width, height).

(** Lines 40-58 of [convertImageToMP4]: the pair [(width, height)] that is
    handed to the muxer, the encoder and the off-screen canvas. *)
Definition targetSize (img : Image) : Z * Z :=
  let '(width, height) :=
    clampLongEdge (Z.of_N (img_width img)) (Z.of_N (img_height img)) in
  (forceEven width, forceEven height).

(** The exact scale factor of the long-edge clamp, as a fraction
    [num / den]: 1280 / max(w, h) when the long edge exceeds 1280, else 1. *)
Definition clampScale (img : Image) : Z * Z :=
  let m := Z.max (Z.of_N (img_width img)) (Z.of_N (img_height img)) in
  if m >? MAX_SIZE then (MAX_SIZE, m) else (1, 1).

(** ** The result name

    [file.name.replace(/\.[^/.]+$/, "")]: the pattern is a dot, then one or
    more characters that are neither a slash nor a dot, then the end of the
    input; [replace] with a non-global pattern rewrites the leftmost match.
    Names are sequences of characters; the pattern only tells the dot and
    the slash from everything else. *)

Module RegExp.

(** The class [[^/.]]. *)
Definition notSlashDot (c : ascii) : bool :=
  negb (Ascii.eqb c "/") && negb (Ascii.eqb c ".").

(** [[^/.]*$] against the whole of [s]. *)
Fixpoint restOfExtension (s : string) : bool :=
  match s with
  | EmptyString => true
  | String c r => notSlashDot c && restOfExtension r
  end.

(** Does [\.[^/.]+$] match from the first character of [s]? *)
Definition matchesHere (s : string) : bool :=
  match s with
  | String d (String c r) =>
      Ascii.eqb d "." && notSlashDot c && restOfExtension r
  | _ => false
  end.

(** [s.replace(/\.[^/.]+$/, "")]: start positions are tried from the
    left; the first one that matches is cut (the match runs to the end of
    the input); with no match the string is returned as it is. *)
Fixpoint replaceExtension (s : string) : string :=
  if matchesHere s then EmptyString
  else match s with
       | EmptyString => EmptyString
       | String c r => String c (replaceExtension r)
       end.

End RegExp.

(** [file.name.replace(/\.[^/.]+$/, "") + ext] (lines 108 and 139). *)
Definition resultName (fileName ext : string) : string :=
  RegExp.replaceExtension fileName +:+ ext.

(** The statement of the name rule in the words of the specification: the
    name is cut at its last dot, and what follows that dot is its final
    extension.  A name has a final extension when it has a dot and the
    part after the last dot is not empty and holds no slash. *)
Module NameSpec.

(** [splitLastDot s = Some (base, ext)] when [s = base ++ "." ++ ext] and
    [ext] holds no dot; [None] when [s] holds no dot. *)
Fixpoint splitLastDot (s : string) : option (string * string) :=
  match s with
  | EmptyString => None
  | String c r =>
      match splitLastDot r with
      | Some (base, ext) => Some (String c base, ext)
      | None => if Ascii.eqb c "." then Some (EmptyString, r) else None
      end
  end.

Fixpoint hasSlash (s : string) : bool :=
  match s with
  | EmptyString => false
  | String c r => Ascii.eqb c "/" || hasSlash r
  end.

Definition stripFinalExtension (s : string) : string :=
  match splitLastDot s with
  | Some (base, ext) =>
      if negb (String.eqb ext EmptyString) && negb (hasSlash ext)
      then base else s
  | None => s
  end.

End NameSpec.

(** ** The record of a converted file and the store of records *)

Record ConvertedVideo := {
  id : string;
  name : string;
  url : string
}.

(** Records are JavaScript objects: the arrays of the component hold
    references to them. *)
Definition ref := positive.

Record File := { file_name : string }.

(** An exception value or the payload of an error event. *)
Definition Err := string.

Inductive PromiseState :=
| Pending
| Fulfilled (v : ref)
| Rejected (e : Err).

(** ** Platform objects and calls *)

(** A 2D canvas: its size and the [drawImage] calls made on it since it was
    last sized. *)
Record DrawOp := {
  drawn : Image;
  dx : Z; dy : Z;
  dsize : option (Z * Z)      (* [None]: the three-argument form *)
}.

Record Canvas := {
  cv_width : Z;
  cv_height : Z;
  cv_draws : list DrawOp
}.

(** [new VideoFrame(canvas, { timestamp })] snapshots the canvas. *)
Record VideoFrame := {
  vf_pixels : Canvas;
  vf_timestamp : Z
}.

Inductive Call :=
| CreateObjectURL_file (f : File)
| NewMuxer (codec : string) (width height : Z) (fastStart : string)
| NewVideoEncoder
| Configure (codec : string) (width height bitrate framerate : Z)
| NewOffscreenCanvas (width height : Z)
| SetCanvasSize (width height : Z)
| GetContext (kind : string)
| DrawImage (op : DrawOp)
| NewVideoFrame (timestamp : Z)
| Encode (frame : VideoFrame) (keyFrame : bool)
| CloseFrame (frame : VideoFrame)
| Flush
| AddVideoChunk (n : nat)
| Finalize
| CaptureStream (frameRate : Z)
| NewMediaRecorder (mimeType : string)
| RecorderStart
| SetTimeout (delay : Z)
| RecorderStop
| PushChunk (n : nat)
| NewBlob (mimeType : string)
| MathRandom
| CreateObjectURL_blob.

(** What the browser does with one file: the outcome of decoding, which
    calls raise, and the values it hands back. *)
Record Platform := {
  load : Err + Image;             (* error event, or load event *)
  raises : Call -> option Err;    (* the call throws (for [Flush]: rejects) *)
  canvasMounted : bool;           (* [canvasRef.current] is not null *)
  context2d : bool;               (* [getContext('2d')] is not null *)
  chunks : nat;                   (* chunks the encoder or recorder emits *)
  encoderError : option Err;      (* the encoder's error callback fires *)
  randomId : string;              (* Math.random().toString(36).substr(2, 9) *)
  blobUrl : string                (* URL.createObjectURL(blob) *)
}.

(** ** Conversions as programs

    One conversion runs against the store of records, the promise it
    returns, the canvas it draws on and the list of platform calls made so
    far.  A program either completes or throws. *)

Record Run := {
  store : gmap ref ConvertedVideo;
  promise : PromiseState;
  canvas : Canvas;
  trace : list Call
}.

Definition Proc (A : Type) : Type := Run -> Run * (Err + A).

Definition ret {A} (a : A) : Proc A := fun r => (r, inr a).

Definition bind {A B} (m : Proc A) (k : A -> Proc B) : Proc B :=
  fun r => match m r with
           | (r', inr a) => k a r'
           | (r', inl e) => (r', inl e)
           end.

Definition throw {A} (e : Err) : Proc A := fun r => (r, inl e).

(** [try { body } catch (err) { handler(err) }] *)
Definition tryCatch {A} (body : Proc A) (handler : Err -> Proc A) : Proc A :=
  fun r => match body r with
           | (r', inl e) => handler e r'
           | done => done
           end.

(** A handler run by the event loop (an event listener, a timer callback):
    an exception that escapes it is reported and goes nowhere.  The result
    tells whether the handler ran to its end. *)
Definition dispatch (handler : Proc unit) : Proc bool :=
  fun r => match handler r with
           | (r', inr _) => (r', inr true)
           | (r', inl _) => (r', inr false)
           end.

Declare Scope proc_scope.
Delimit Scope proc_scope with proc.
Notation "x <- m ;; k" := (bind m (fun x => k))
  (at level 100, m at next level, right associativity) : proc_scope.
Notation "m ;; k" := (bind m (fun _ => k))
  (at level 100, right associativity) : proc_scope.
Local Open Scope proc_scope.

Definition log (c : Call) (r : Run) : Run :=
  {| store := store r; promise := promise r; canvas := canvas r;
     trace := trace r ++ [c] |}.

Definition note (c : Call) : Proc unit := fun r => (log c r, inr tt).

Definition appendCalls (cs : list Call) (r : Run) : Run :=
  {| store := store r; promise := promise r; canvas := canvas r;
     trace := trace r ++ cs |}.

Definition settle (p : PromiseState) (r : Run) : Run :=
  {| store := store r; promise := p; canvas := canvas r; trace := trace r |}.

(** [resolve(v)] and [reject(e)]: only a pending promise changes. *)
Definition resolve (v : ref) : Proc unit := fun r =>
  match promise r with
  | Pending => (settle (Fulfilled v) r, inr tt)
  | _ => (r, inr tt)
  end.

Definition reject (e : Err) : Proc unit := fun r =>
  match promise r with
  | Pending => (settle (Rejected e) r, inr tt)
  | _ => (r, inr tt)
  end.

(** An object literal [{ id, name, url }]: a new record in the store. *)
Definition alloc (v : ConvertedVideo) : Proc ref := fun r =>
  let l := fresh (dom (store r)) in
  ({| store := <[l := v]> (store r); promise := promise r;
      canvas := canvas r; trace := trace r |}, inr l).

Definition setCanvas (c : Canvas) : Proc unit := fun r =>
  ({| store := store r; promise := promise r; canvas := c;
      trace := trace r |}, inr tt).

Definition paint (op : DrawOp) : Proc unit := fun r =>
  let c := canvas r in
  setCanvas {| cv_width := cv_width c; cv_height := cv_height c;
               cv_draws := cv_draws c ++ [op] |} r.

(** The executor of [new Promise(...)]: when it throws, the promise is
    rejected with what it threw.  The result tells whether it ran to its
    end. *)
Definition executor (body : Proc unit) : Proc bool :=
  fun r => match body r with
           | (r', inr _) => (r', inr true)
           | (r', inl e) => (fst (reject e r'), inr false)
           end.

Definition TypeError : Err := "TypeError".

Section Conversion.

Context (file : File) (env : Platform).

(** The outcome of a platform call. *)
Definition outcome (c : Call) : Proc unit :=
  match raises env c with
  | Some e => throw e
  | None => ret tt
  end.

(** A platform call made by the program: logged, and it may throw. *)
Definition call (c : Call) : Proc unit := note c ;; outcome c.

(** [canvas.getContext('2d')!]: the assertion is erased at run time. *)
Definition getContext (kind : string) : Proc bool :=
  call (GetContext kind) ;; ret (context2d env).

(** [ctx.drawImage(...)] on the context obtained above; on [null] the
    member access throws. *)
Definition drawImage (ctx : bool) (op : DrawOp) : Proc unit :=
  if ctx then call (DrawImage op) ;; paint op else throw TypeError.

Definition newVideoFrame (timestamp : Z) : Proc VideoFrame :=
  call (NewVideoFrame timestamp) ;;
  fun r => (r, inr {| vf_pixels := canvas r; vf_timestamp := timestamp |}).

(** The [output] callback of the encoder, once per emitted chunk; it is
    invoked by the platform, which reports what it throws. *)
Fixpoint outputChunks (n : nat) : Proc unit :=
  match n with
  | O => ret tt
  | S k => outputChunks k ;; dispatch (call (AddVideoChunk k)) ;; ret tt
  end.

(** [await encoder.flush()].  While the program waits the encoder hands
    its chunks to [output]; when it fails it calls [error], which is
    [(e) => reject(e)], and rejects the pending flush with the same
    value. *)
Definition awaitFlush : Proc unit :=
  note Flush ;;
  outputChunks (chunks env) ;;
  match encoderError env with
  | Some e => reject e ;; throw e
  | None => outcome Flush
  end.

(** [img.onload] of the MP4 path (lines 37-114). *)
Definition onloadMP4 (img : Image) : Proc unit :=
  tryCatch
    (let '(width, height) := targetSize img in
     call (NewMuxer "avc" width height "in-memory") ;;
     call NewVideoEncoder ;;
     call (Configure "avc1.640028" width height 2000000 1) ;;
     call (NewOffscreenCanvas width height) ;;
     setCanvas {| cv_width := width; cv_height := height;
                  cv_draws := [] |} ;;
     ctx <- getContext "2d" ;;
     drawImage ctx {| drawn := img; dx := 0; dy := 0;
                      dsize := Some (width, height) |} ;;
     frame <- newVideoFrame 0 ;;
     call (Encode frame true) ;;
     call (CloseFrame frame) ;;
     frameEnd <- newVideoFrame 1000000 ;;
     call (Encode frameEnd false) ;;
     call (CloseFrame frameEnd) ;;
     awaitFlush ;;
     call Finalize ;;
     call (NewBlob "video/mp4") ;;
     call MathRandom ;;
     call CreateObjectURL_blob ;;
     video <- alloc {| id := randomId env;
                       name := resultName (file_name file) ".mp4";
                       url := blobUrl env |} ;;
     resolve video)
    (fun err => reject err).

(** [convertImageToMP4] (lines 33-117).  The executor sets the source of
    the image and registers the two handlers.  Then the image either
    loads, which runs [onload], or fails, which runs
    [onerror = (e) => reject(e)]. *)
Definition convertImageToMP4 : Proc unit :=
  registered <- executor (call (CreateObjectURL_file file)) ;;
  if registered : bool then
    match load env with
    | inr img => dispatch (onloadMP4 img) ;; ret tt
    | inl e => dispatch (reject e) ;; ret tt
    end
  else ret tt.

(** [img.onload] of the WebM path (lines 123-146): no [try], and the
    promise was built with [resolve] alone. *)
Definition onloadWebM (img : Image) : Proc unit :=
  (if canvasMounted env then ret tt else throw TypeError) ;;
  call (SetCanvasSize (Z.of_N (img_width img)) (Z.of_N (img_height img))) ;;
  setCanvas {| cv_width := Z.of_N (img_width img);
               cv_height := Z.of_N (img_height img);
               cv_draws := [] |} ;;
  ctx <- getContext "2d" ;;
  drawImage ctx {| drawn := img; dx := 0; dy := 0; dsize := None |} ;;
  call (CaptureStream 1) ;;
  call (NewMediaRecorder "video/webm") ;;
  call RecorderStart ;;
  call (SetTimeout 1000).

(** [recorder.ondataavailable], once per chunk the recorder delivers. *)
Fixpoint dataAvailable (n : nat) : Proc unit :=
  match n with
  | O => ret tt
  | S k => dataAvailable k ;; dispatch (call (PushChunk k)) ;; ret tt
  end.

(** [recorder.onstop] (lines 135-142). *)
Definition onstop : Proc unit :=
  call (NewBlob "video/webm") ;;
  call MathRandom ;;
  call CreateObjectURL_blob ;;
  video <- alloc {| id := randomId env;
                    name := resultName (file_name file) ".webm";
                    url := blobUrl env |} ;;
  resolve video.

(** [convertImageToVideo] (lines 119-148).  After the executor: the load
    event runs [onload]; when that set the timer, the timer callback
    stops the recorder; when that went through, the recorder delivers its
    data and fires [stop].  There is no [onerror] handler. *)
Definition convertImageToVideo : Proc unit :=
  registered <- executor (call (CreateObjectURL_file file)) ;;
  if registered : bool then
    match load env with
    | inr img =>
        started <- dispatch (onloadWebM img) ;;
        if started : bool then
          stopped <- dispatch (call RecorderStop) ;;
          if stopped : bool then
            dataAvailable (chunks env) ;;
            dispatch onstop ;; ret tt
          else ret tt
        else ret tt
    | inl _ => ret tt
    end
  else ret tt.

End Conversion.

(** ** The component *)

Record Component := {
  videos : list ref;
  isProcessing : bool
}.

Record World := {
  objects : gmap ref ConvertedVideo;
  app : Component;
  calls : list Call
}.

(** How a call of the asynchronous [handleFileUpload] ends: it returns, it
    throws (its promise rejects), or it waits for a promise that never
    settles. *)
Inductive Completion :=
| Returned
| Thrown (e : Err)
| Suspended.

Definition Converter : Type := File -> Platform -> Proc unit.

Definition blankCanvas : Canvas :=
  {| cv_width := 300; cv_height := 150; cv_draws := [] |}.

(** One call [convert(file)]: a new pending promise, run to quiescence. *)
Definition runConversion (convert : Converter) (file : File) (env : Platform)
    (objs : gmap ref ConvertedVideo) : Run :=
  fst (convert file env
         {| store := objs; promise := Pending; canvas := blankCanvas;
            trace := [] |}).

(** The loop of lines 24-27: [await] resumes with the record when the
    promise fulfils, throws when it rejects, and never resumes while it is
    pending. *)
Fixpoint convertEach (convert : Converter) (files : list (File * Platform))
    (newVideos : list ref) (w : World) : World * list ref * Completion :=
  match files with
  | [] => (w, newVideos, Returned)
  | (file, env) :: rest =>
      let r := runConversion convert file env (objects w) in
      let w' := {| objects := store r; app := app w;
                   calls := calls w ++ trace r |} in
      match promise r with
      | Fulfilled video => convertEach convert rest (newVideos ++ [video]) w'
      | Rejected e => (w', newVideos, Thrown e)
      | Pending => (w', newVideos, Suspended)
      end
  end.

Definition setIsProcessing (b : bool) (w : World) : World :=
  {| objects := objects w;
     app := {| videos := videos (app w); isProcessing := b |};
     calls := calls w |}.

(** [setVideos(update)] with a functional update. *)
Definition setVideos (update : list ref -> list ref) (w : World) : World :=
  {| objects := objects w;
     app := {| videos := update (videos (app w));
               isProcessing := isProcessing (app w) |};
     calls := calls w |}.

(** [handleFileUpload] (lines 16-31); [files] is [e.target.files], which
    may be [null], each file paired with what the platform does with it. *)
Definition handleFileUploadWith (convert : Converter)
    (files : option (list (File * Platform))) (w : World)
    : World * Completion :=
  match files with
  | None => (w, Returned)
  | Some files =>
      let w1 := setIsProcessing true w in
      match convertEach convert files [] w1 with
      | (w2, newVideos, Returned) =>
          let w3 := setVideos (fun prev => newVideos ++ prev) w2 in
          (setIsProcessing false w3, Returned)
      | (w2, _, stuck) => (w2, stuck)
      end
  end.

(** The component of src/App.tsx converts with the MP4 path. *)
Definition handleFileUpload := handleFileUploadWith convertImageToMP4.

(** Its variant (the second source file) converts with the WebM path. *)
Definition handleFileUpload_webm := handleFileUploadWith convertImageToVideo.

(** One card of the gallery (the [videos.map] of the render): the caption
    and the [download] attribute are the record's name. *)
Record Card := {
  card_key : string;
  card_src : string;
  card_caption : string;
  card_href : string;
  card_download : string
}.

Definition renderCard (v : ConvertedVideo) : Card :=
  {| card_key := id v; card_src := url v; card_caption := name v;
     card_href := url v; card_download := name v |}.

Definition render (w : World) : list Card :=
  omap (fun l => renderCard <$> objects w !! l) (videos (app w)).

(** The records a list of references stands for. *)
Definition entries (w : World) (refs : list ref) : list (option ConvertedVideo) :=
  (fun l => objects w !! l) <$> refs.

(** ** What a conversion is expected to do

    The record a conversion resolves with, and the platform calls of a
    conversion on which nothing goes wrong ([n] is the number of chunks
    the platform emits). *)

Definition mp4Record (file : File) (env : Platform) : ConvertedVideo :=
  {| id := randomId env; name := resultName (file_name file) ".mp4";
     url := blobUrl env |}.

Definition webmRecord (file : File) (env : Platform) : ConvertedVideo :=
  {| id := randomId env; name := resultName (file_name file) ".webm";
     url := blobUrl env |}.

(** The off-screen canvas after [ctx.drawImage(img, 0, 0, width, height)]. *)
Definition paintedCanvas (img : Image) : Canvas :=
  let '(width, height) := targetSize img in
  {| cv_width := width; cv_height := height;
     cv_draws := [ {| drawn := img; dx := 0; dy := 0;
                      dsize := Some (width, height) |} ] |}.

Definition firstFrame (img : Image) : VideoFrame :=
  {| vf_pixels := paintedCanvas img; vf_timestamp := 0 |}.

Definition lastFrame (img : Image) : VideoFrame :=
  {| vf_pixels := paintedCanvas img; vf_timestamp := 1000000 |}.

Definition mp4Calls (file : File) (img : Image) (n : nat) : list Call :=
  let '(width, height) := targetSize img in
  [ CreateObjectURL_file file;
    NewMuxer "avc" width height "in-memory";
    NewVideoEncoder;
    Configure "avc1.640028" width height 2000000 1;
    NewOffscreenCanvas width height;
    GetContext "2d";
    DrawImage {| drawn := img; dx := 0; dy := 0;
                 dsize := Some (width, height) |};
    NewVideoFrame 0;
    Encode (firstFrame img) true;
    CloseFrame (firstFrame img);
    NewVideoFrame 1000000;
    Encode (lastFrame img) false;
    CloseFrame (lastFrame img);
    Flush ]
  ++ (AddVideoChunk <$> seq 0 n)
  ++ [ Finalize; NewBlob "video/mp4"; MathRandom; CreateObjectURL_blob ].

Definition webmCalls (file : File) (img : Image) (n : nat) : list Call :=
  [ CreateObjectURL_file file;
    SetCanvasSize (Z.of_N (img_width img)) (Z.of_N (img_height img));
    GetContext "2d";
    DrawImage {| drawn := img; dx := 0; dy := 0; dsize := None |};
    CaptureStream 1;
    NewMediaRecorder "video/webm";
    RecorderStart;
    SetTimeout 1000;
    RecorderStop ]
  ++ (PushChunk <$> seq 0 n)
  ++ [ NewBlob "video/webm"; MathRandom; CreateObjectURL_blob ].

(** Nothing goes wrong for a file on the MP4 path: the image decodes, the
    2D context exists, the encoder reports no error and none of the calls
    the program makes itself throws.  (The calls of the [output] callback
    are the platform's: what they throw is reported, not propagated.) *)
Definition mp4Clean (file : File) (env : Platform) (img : Image) : Prop :=
  load env = inr img /\ context2d env = true /\ encoderError env = None /\
  forall c, c ∈ mp4Calls file img 0 -> raises env c = None.

Definition webmClean (file : File) (env : Platform) (img : Image) : Prop :=
  load env = inr img /\ canvasMounted env = true /\ context2d env = true /\
  forall c, c ∈ webmCalls file img 0 -> raises env c = None.

(** The calls made on the encoder itself and on the muxer's finalizer, in
    the order they are made. *)
Definition isEncoderCall (c : Call) : bool :=
  match c with
  | Encode _ _ | Flush | Finalize => true
  | _ => false
  end.

(** A file of an upload converts when the promise of its conversion
    fulfils, and fails to convert when that promise rejects, whatever the
    store of records holds at that time. *)
Definition converts (convert : Converter) (fe : File * Platform) : Prop :=
  forall σ, exists l,
    promise (runConversion convert fe.1 fe.2 σ) = Fulfilled l.

Definition failsToConvert (convert : Converter) (fe : File * Platform) : Prop :=
  forall σ, exists e,
    promise (runConversion convert fe.1 fe.2 σ) = Rejected e.

(** The entry expected for a file of an upload. *)
Definition entryOf (record : File -> Platform -> ConvertedVideo)
    (fe : File * Platform) : option ConvertedVideo :=
  Some (record fe.1 fe.2).

Definition onFile (P : File -> Platform -> Prop) (fe : File * Platform) : Prop :=
  P fe.1 fe.2.

Definition mp4CleanFile (file : File) (env : Platform) : Prop :=
  exists img, mp4Clean file env img.

Definition webmCleanFile (file : File) (env : Platform) : Prop :=
  exists img, webmClean file env img.

(** ** Sample inputs

    A platform on which every call goes through, one on which the image
    does not decode, and the state of a component that has converted
    nothing yet. *)

Definition okPlatform (img : Image) : Platform :=
  {| load := inr img; raises := fun _ => None; canvasMounted := true;
     context2d := true; chunks := 2; encoderError := None;
     randomId := "k3j9x0q2a"; blobUrl := "blob:result" |}.

Definition brokenPlatform : Platform :=
  {| load := inl "error"; raises := fun _ => None; canvasMounted := true;
     context2d := true; chunks := 0; encoderError := None;
     randomId := "k3j9x0q2a"; blobUrl := "blob:result" |}.

(** A platform on which the muxer refuses every chunk the encoder hands
    to the [output] callback, and everything else goes through. *)
Definition chunkRefusingPlatform (img : Image) : Platform :=
  {| load := inr img;
     raises := fun c => match c with
                        | AddVideoChunk _ => Some "mux"
                        | _ => None
                        end;
     canvasMounted := true; context2d := true; chunks := 2;
     encoderError := None;
     randomId := "k3j9x0q2a"; blobUrl := "blob:result" |}.

Definition emptyWorld : World :=
  {| objects := ∅; app := {| videos := []; isProcessing := false |};
     calls := [] |}.

Definition photo : File := {| file_name := "photo.png" |}.
Definition scan : File := {| file_name := "scan.final.jpeg" |}.
Definition broken : File := {| file_name := "broken.png" |}.

Definition fullHD : Image := {| img_width := 1920; img_height := 1080 |}.
Definition icon : Image := {| img_width := 64; img_height := 48 |}.
Definition pixel : Image := {| img_width := 1; img_height := 1 |}.

(** Two files that convert, and a batch whose second file is unreadable. *)
Definition goodBatch : list (File * Platform) :=
  [ (photo, okPlatform fullHD); (scan, okPlatform icon) ].

Definition badBatch : list (File * Platform) :=
  [ (photo, okPlatform fullHD); (broken, brokenPlatform);
    (scan, okPlatform icon) ].

(** ** Further inputs and observations

    The image a conversion would see if its own output size were fed back,
    and the condition under which every entry of the result list stands
    for a record. *)

Definition resized (img : Image) : Image :=
  let '(width, height) := targetSize img in
  {| img_width := Z.to_N width; img_height := Z.to_N height |}.

Definition wellFormed (w : World) : Prop :=
  forall l, l ∈ videos (app w) -> is_Some (objects w !! l).

(** The size a call hands to the platform, for the calls that carry one. *)
Definition sizeCarried (c : Call) : option (Z * Z) :=
  match c with
  | NewMuxer _ width height _ => Some (width, height)
  | Configure _ width height _ _ => Some (width, height)
  | NewOffscreenCanvas width height => Some (width, height)
  | DrawImage op => dsize op
  | _ => None
  end.

(** A platform on which everything goes through until the encoder reports
    an error while the conversion waits for the flush. *)
Definition encoderErrorPlatform (img : Image) : Platform :=
  {| load := inr img; raises := fun _ => None; canvasMounted := true;
     context2d := true; chunks := 1; encoderError := Some "EncodingError";
     randomId := "k3j9x0q2a"; blobUrl := "blob:result" |}.

(** Platforms on which one kind of call throws and everything else goes
    through: the configuration of the encoder, or every [encode]. *)
Definition configureThrowsPlatform (img : Image) : Platform :=
  {| load := inr img;
     raises := fun c => match c with
                        | Configure _ _ _ _ _ => Some "NotSupportedError"
                        | _ => None
                        end;
     canvasMounted := true; context2d := true; chunks := 0;
     encoderError := None;
     randomId := "k3j9x0q2a"; blobUrl := "blob:result" |}.

Definition encodeThrowsPlatform (img : Image) : Platform :=
  {| load := inr img;
     raises := fun c => match c with
                        | Encode _ _ => Some "InvalidStateError"
                        | _ => None
                        end;
     canvasMounted := true; context2d := true; chunks := 0;
     encoderError := None;
     randomId := "k3j9x0q2a"; blobUrl := "blob:result" |}.

(** The card the gallery shows for a file of an upload that converted. *)
Definition mp4Card (fe : File * Platform) : Card :=
  renderCard (mp4Record fe.1 fe.2).

(** A file of an upload whose conversion never settles. *)
Definition staysPending (convert : Converter) (fe : File * Platform) : Prop :=
  forall σ, promise (runConversion convert fe.1 fe.2 σ) = Pending.

(** ** Facts on rounding and on the even-forcing step *)

Lemma round_margin (a b k : Z) :
  0 < b -> 2 * a <> (2 * k + 1) * b -> 1 <= Z.abs (2 * a - (2 * k + 1) * b).
Proof. lia. Qed.

Lemma Math_round_div_bounds (a b : Z) :
  0 < b ->
  2 * a - b < 2 * b * JS.Math_round_div a b <= 2 * a + b.
Proof.
  intros Hb. unfold JS.Math_round_div.
  pose proof (Z.div_mod (2 * a + b) (2 * b) ltac:(lia)) as E.
  pose proof (Z.mod_pos_bound (2 * a + b) (2 * b) ltac:(lia)) as B.
  lia.
Qed.

Lemma Math_round_div_nonneg (a b : Z) :
  0 < b -> 0 <= a -> 0 <= JS.Math_round_div a b.
Proof.
  intros Hb Ha. unfold JS.Math_round_div. apply Z.div_pos; lia.
Qed.

Lemma Math_round_div_le (a b c : Z) :
  0 < b -> 2 * a < (2 * c + 1) * b -> JS.Math_round_div a b <= c.
Proof.
  intros Hb H. pose proof (Math_round_div_bounds a b Hb). nia.
Qed.

Lemma forceEven_spec (n : Z) :
  0 <= n -> Z.even (forceEven n) = true /\ n - 1 <= forceEven n <= n.
Proof.
  intros Hn. unfold forceEven, JS.rem.
  rewrite Z.rem_mod_nonneg by lia.
  destruct (Z.eqb_spec (n mod 2) 0) as [E|E].
  - split; [|lia]. rewrite Zeven_mod. now apply Z.eqb_eq.
  - split; [|lia]. rewrite Zeven_mod. apply Z.eqb_eq.
    pose proof (Z.mod_pos_bound n 2 ltac:(lia)).
    rewrite Zminus_mod. replace (n mod 2) with 1 by lia. reflexivity.
Qed.

Lemma forceEven_even (n : Z) : Z.even n = true -> forceEven n = n.
Proof.
  intros H. unfold forceEven, JS.rem.
  destruct (Z.eqb_spec (Z.rem n 2) 0) as [E|E]; [reflexivity|].
  exfalso. apply E. apply Z.rem_divide; [lia|].
  apply Z.even_spec in H. destruct H as [k ->]. exists k. lia.
Qed.

Lemma clampLongEdge_spec (w h : Z) :
  0 <= w -> 0 <= h ->
  let '(w', h') := clampLongEdge w h in
  0 <= w' <= w /\ 0 <= h' <= h /\ w' <= MAX_SIZE /\ h' <= MAX_SIZE.
Proof.
  intros Hw Hh. unfold clampLongEdge, MAX_SIZE.
  destruct (Z.gtb_spec w 1280), (Z.gtb_spec h 1280); simpl;
    destruct (Z.gtb_spec w h); simpl; try lia.
  all: repeat split; try lia;
    try (apply Math_round_div_nonneg; lia);
    try (apply Math_round_div_le; nia).
Qed.

(** ** The size computation *)

Lemma targetSize_unfold (img : Image) :
  targetSize img =
  (forceEven (fst (clampLongEdge (Z.of_N (img_width img))
                                 (Z.of_N (img_height img)))),
   forceEven (snd (clampLongEdge (Z.of_N (img_width img))
                                 (Z.of_N (img_height img))))).
Proof. unfold targetSize. now destruct (clampLongEdge _ _). Qed.

(** The clamp alone keeps each dimension within half a pixel of the exactly
    scaled one. *)
Lemma clampLongEdge_scale (w h : Z) :
  0 <= w -> 0 <= h ->
  let m := Z.max w h in
  let '(num, den) := if m >? MAX_SIZE then (MAX_SIZE, m) else (1, 1) in
  let '(w', h') := clampLongEdge w h in
  2 * Z.abs (w' * den - num * w) <= den /\
  2 * Z.abs (h' * den - num * h) <= den.
Proof.
  intros Hw Hh. unfold clampLongEdge, MAX_SIZE. cbv zeta.
  destruct (Z.gtb_spec (Z.max w h) 1280) as [Hm|Hm];
    destruct (Z.gtb_spec w 1280), (Z.gtb_spec h 1280); simpl; try lia;
    destruct (Z.gtb_spec w h); simpl; try lia.
  all: first
    [ replace (Z.max w h) with w by lia;
      pose proof (Math_round_div_bounds (h * 1280) w ltac:(lia))
    | replace (Z.max w h) with h by lia;
      pose proof (Math_round_div_bounds (w * 1280) h ltac:(lia)) ];
    split; lia.
Qed.

Lemma forceEven_cases (n : Z) :
  0 <= n -> forceEven n = n \/ forceEven n = n - 1.
Proof. intros Hn. pose proof (forceEven_spec n Hn). lia. Qed.

(** C1.  For every image of positive width and height, the width and the
    height computed by the MP4 path are both even, the longer of them is at
    most 1280, and the aspect ratio is kept up to integer rounding: each
    dimension is within 3/2 of a pixel of the exactly scaled dimension
    (scale 1280/max(w,h) when the long edge exceeds 1280, else 1), and the
    two ratios, compared by cross-multiplication, differ by at most 3/2 of
    the long edge. *)
Theorem mp4_size_even_bounded_aspect (img : Image) :
  (0 < img_width img)%N -> (0 < img_height img)%N ->
  let w := Z.of_N (img_width img) in
  let h := Z.of_N (img_height img) in
  let '(w', h') := targetSize img in
  let '(num, den) := clampScale img in
  Z.even w' = true /\ Z.even h' = true /\
  Z.max w' h' <= MAX_SIZE /\
  2 * Z.abs (w' * den - num * w) <= 3 * den /\
  2 * Z.abs (h' * den - num * h) <= 3 * den /\
  2 * Z.abs (w' * h - h' * w) <= 3 * Z.max w h.
Proof.
  intros Hw Hh. cbv zeta.
  rewrite targetSize_unfold. unfold clampScale.
  set (w := Z.of_N (img_width img)). set (h := Z.of_N (img_height img)).
  assert (0 < w) as Hw' by (subst w; lia).
  assert (0 < h) as Hh' by (subst h; lia).
  pose proof (clampLongEdge_spec w h ltac:(lia) ltac:(lia)) as Hc.
  pose proof (clampLongEdge_scale w h ltac:(lia) ltac:(lia)) as Hs.
  cbv zeta in Hs.
  destruct (clampLongEdge w h) as [cw ch] eqn:Ec. simpl fst. simpl snd.
  destruct Hc as (Hcw & Hch & Hmw & Hmh).
  pose proof (forceEven_spec cw ltac:(lia)) as [Ew Bw].
  pose proof (forceEven_spec ch ltac:(lia)) as [Eh Bh].
  assert (2 * Z.abs (forceEven cw * h - forceEven ch * w) <= 3 * Z.max w h)
    as Hx.
  { revert Ec. unfold clampLongEdge, MAX_SIZE.
    destruct (Z.gtb_spec w 1280), (Z.gtb_spec h 1280); cbn [orb];
      destruct (Z.gtb_spec w h); intros [= <- <-]; try lia.
    all: first
      [ change (forceEven 1280) with 1280;
        first [ pose proof (Math_round_div_bounds (h * 1280) w ltac:(lia));
                pose proof (Math_round_div_nonneg (h * 1280) w
                              ltac:(lia) ltac:(lia));
                destruct (forceEven_cases
                            (JS.Math_round_div (h * 1280) w) ltac:(lia))
                  as [-> | ->]; lia
              | pose proof (Math_round_div_bounds (w * 1280) h ltac:(lia));
                pose proof (Math_round_div_nonneg (w * 1280) h
                              ltac:(lia) ltac:(lia));
                destruct (forceEven_cases
                            (JS.Math_round_div (w * 1280) h) ltac:(lia))
                  as [-> | ->]; lia ]
      | destruct (forceEven_cases w ltac:(lia)) as [-> | ->];
        destruct (forceEven_cases h ltac:(lia)) as [-> | ->]; lia ]. }
  destruct (forceEven_cases cw ltac:(lia)) as [Fw | Fw];
    destruct (forceEven_cases ch ltac:(lia)) as [Fh | Fh];
    destruct (Z.max w h >? MAX_SIZE) eqn:Em;
    repeat split; try assumption; try lia;
    rewrite ?Fw, ?Fh; lia.
Qed.

Lemma mp4_size_even_bounded_aspect_witness :
  (0 < img_width fullHD)%N /\ (0 < img_height fullHD)%N /\
  Z.even (fst (targetSize fullHD)) = true /\
  Z.even (snd (targetSize fullHD)) = true /\
  Z.max (fst (targetSize fullHD)) (snd (targetSize fullHD)) <= MAX_SIZE.
Proof.
  assert ((0 < img_width fullHD)%N) as Hw by reflexivity.
  assert ((0 < img_height fullHD)%N) as Hh by reflexivity.
  pose proof (mp4_size_even_bounded_aspect fullHD Hw Hh) as H.
  cbv zeta in H.
  destruct (targetSize fullHD) as [w' h'], (clampScale fullHD) as [num den].
  simpl fst. simpl snd. tauto.
Defined.

(** C9.  The size computation of the MP4 path never enlarges: the computed
    width is at most the width of the image and the computed height at most
    its height; and when both dimensions of the image are even and at most
    1280, the computed size is the size of the image. *)
Theorem mp4_size_never_enlarges (img : Image) :
  let w := Z.of_N (img_width img) in
  let h := Z.of_N (img_height img) in
  let '(w', h') := targetSize img in
  w' <= w /\ h' <= h /\
  (Z.even w = true -> Z.even h = true -> w <= MAX_SIZE -> h <= MAX_SIZE ->
   (w', h') = (w, h)).
Proof.
  cbv zeta. rewrite targetSize_unfold.
  set (w := Z.of_N (img_width img)). set (h := Z.of_N (img_height img)).
  assert (0 <= w) as Hw by (subst w; lia).
  assert (0 <= h) as Hh by (subst h; lia).
  pose proof (clampLongEdge_spec w h Hw Hh) as Hc.
  destruct (clampLongEdge w h) as [cw ch] eqn:Ec. simpl fst. simpl snd.
  destruct Hc as (Hcw & Hch & _ & _).
  pose proof (forceEven_spec cw ltac:(lia)) as [_ Bw].
  pose proof (forceEven_spec ch ltac:(lia)) as [_ Bh].
  split; [lia|]. split; [lia|].
  intros Ew Eh Mw Mh. revert Ec. unfold clampLongEdge.
  destruct (Z.gtb_spec w MAX_SIZE); [lia|].
  destruct (Z.gtb_spec h MAX_SIZE); [lia|].
  cbn [orb]. intros [= <- <-]. now rewrite !forceEven_even.
Qed.

Lemma mp4_size_never_enlarges_witness :
  Z.even 64 = true /\ Z.even 48 = true /\ 64 <= MAX_SIZE /\ 48 <= MAX_SIZE /\
  targetSize icon = (64, 48).
Proof.
  assert (64 <= MAX_SIZE) as Mw by (vm_compute; discriminate).
  assert (48 <= MAX_SIZE) as Mh by (vm_compute; discriminate).
  pose proof (mp4_size_never_enlarges icon) as H. cbv zeta in H.
  destruct (targetSize icon) as [w' h'].
  destruct H as (_ & _ & H).
  repeat split; try assumption.
  exact (H eq_refl eq_refl Mw Mh).
Defined.

(** ** Running programs: one step at a time *)

Section Steps.

Context (env : Platform).

Lemma bind_bind {A B C} (m : Proc A) (f : A -> Proc B) (g : B -> Proc C) r :
  bind (bind m f) g r = bind m (fun x => bind (f x) g) r.
Proof. unfold bind. now destruct (m r) as [r' [e|a]]. Qed.

Lemma bind_ret {A B} (a : A) (k : A -> Proc B) r : bind (ret a) k r = k a r.
Proof. reflexivity. Qed.

Lemma bind_throw {A B} (e : Err) (k : A -> Proc B) r :
  bind (throw e) k r = (r, inl e).
Proof. reflexivity. Qed.

Lemma bind_note {B} c (k : unit -> Proc B) r :
  bind (note c) k r = k tt (log c r).
Proof. reflexivity. Qed.

Lemma bind_outcome {B} c (k : unit -> Proc B) r :
  bind (outcome env c) k r =
  match raises env c with Some e => (r, inl e) | None => k tt r end.
Proof. unfold bind, outcome. now destruct (raises env c). Qed.

Lemma bind_call {B} c (k : unit -> Proc B) r :
  bind (call env c) k r = bind (outcome env c) k (log c r).
Proof. unfold call. now rewrite bind_bind, bind_note. Qed.

Lemma call_run c r :
  call env c r =
  match raises env c with
  | Some e => (log c r, inl e)
  | None => (log c r, inr tt)
  end.
Proof. unfold call, bind, note, outcome. now destruct (raises env c). Qed.

Lemma outcome_run c r :
  outcome env c r =
  match raises env c with Some e => (r, inl e) | None => (r, inr tt) end.
Proof. unfold outcome. now destruct (raises env c). Qed.

Lemma bind_setCanvas {B} c (k : unit -> Proc B) r :
  bind (setCanvas c) k r =
  k tt {| store := store r; promise := promise r; canvas := c;
          trace := trace r |}.
Proof. reflexivity. Qed.

Lemma bind_paint {B} op (k : unit -> Proc B) r :
  bind (paint op) k r =
  k tt {| store := store r; promise := promise r;
          canvas := {| cv_width := cv_width (canvas r);
                       cv_height := cv_height (canvas r);
                       cv_draws := cv_draws (canvas r) ++ [op] |};
          trace := trace r |}.
Proof. reflexivity. Qed.

Lemma bind_alloc {B} v (k : ref -> Proc B) r :
  bind (alloc v) k r =
  k (fresh (dom (store r)))
    {| store := <[fresh (dom (store r)) := v]> (store r);
       promise := promise r; canvas := canvas r; trace := trace r |}.
Proof. reflexivity. Qed.

Lemma bind_reject {B} e (k : unit -> Proc B) r :
  bind (reject e) k r = k tt (fst (reject e r)).
Proof. unfold bind, reject. now destruct (promise r). Qed.

Lemma bind_dispatch {B} (h : Proc unit) (k : bool -> Proc B) r :
  bind (dispatch h) k r =
  k (match snd (h r) with inr _ => true | inl _ => false end) (fst (h r)).
Proof. unfold bind, dispatch. now destruct (h r) as [r' [e|a]]. Qed.

Lemma bind_executor {B} (body : Proc unit) (k : bool -> Proc B) r :
  bind (executor body) k r =
  match body r with
  | (r', inr _) => k true r'
  | (r', inl e) => k false (fst (reject e r'))
  end.
Proof. unfold bind, executor. now destruct (body r) as [r' [e|a]]. Qed.

Lemma outputChunks_run n r :
  outputChunks env n r = (appendCalls (AddVideoChunk <$> seq 0 n) r, inr tt).
Proof.
  revert r. induction n as [|n IH]; intros r.
  - unfold appendCalls. simpl. rewrite app_nil_r. now destruct r.
  - cbn [outputChunks]. unfold bind at 1. rewrite IH.
    rewrite bind_dispatch, call_run.
    destruct (raises env (AddVideoChunk n)); cbn [fst snd ret];
      unfold appendCalls, log; cbn [store promise canvas trace];
      rewrite seq_S, fmap_app, app_assoc; reflexivity.
Qed.

Lemma dataAvailable_run n r :
  dataAvailable env n r = (appendCalls (PushChunk <$> seq 0 n) r, inr tt).
Proof.
  revert r. induction n as [|n IH]; intros r.
  - unfold appendCalls. simpl. rewrite app_nil_r. now destruct r.
  - cbn [dataAvailable]. unfold bind at 1. rewrite IH.
    rewrite bind_dispatch, call_run.
    destruct (raises env (PushChunk n)); cbn [fst snd ret];
      unfold appendCalls, log; cbn [store promise canvas trace];
      rewrite seq_S, fmap_app, app_assoc; reflexivity.
Qed.

Lemma bind_outputChunks {B} n (k : unit -> Proc B) r :
  bind (outputChunks env n) k r =
  k tt (appendCalls (AddVideoChunk <$> seq 0 n) r).
Proof. unfold bind. now rewrite outputChunks_run. Qed.

Lemma bind_dataAvailable {B} n (k : unit -> Proc B) r :
  bind (dataAvailable env n) k r =
  k tt (appendCalls (PushChunk <$> seq 0 n) r).
Proof. unfold bind. now rewrite dataAvailable_run. Qed.

Lemma bind_getContext {B} kind (k : bool -> Proc B) r :
  bind (getContext env kind) k r =
  bind (outcome env (GetContext kind)) (fun _ => k (context2d env))
       (log (GetContext kind) r).
Proof.
  unfold getContext. rewrite bind_bind, bind_call.
  unfold bind. now destruct (outcome env _ _) as [r' [e|a]].
Qed.

Lemma bind_drawImage {B} (ctx : bool) op (k : unit -> Proc B) r :
  bind (drawImage env ctx op) k r =
  if ctx then bind (call env (DrawImage op)) (fun _ => bind (paint op) k) r
  else (r, inl TypeError).
Proof. destruct ctx; [apply bind_bind | reflexivity]. Qed.

Lemma bind_newVideoFrame {B} ts (k : VideoFrame -> Proc B) r :
  bind (newVideoFrame env ts) k r =
  bind (outcome env (NewVideoFrame ts))
       (fun _ => k {| vf_pixels := canvas r; vf_timestamp := ts |})
       (log (NewVideoFrame ts) r).
Proof.
  unfold newVideoFrame. rewrite bind_bind, bind_call.
  unfold bind, outcome. now destruct (raises env _).
Qed.

Lemma bind_awaitFlush {B} (k : unit -> Proc B) r :
  bind (awaitFlush env) k r =
  let r1 := appendCalls (AddVideoChunk <$> seq 0 (chunks env))
                        (log Flush r) in
  match encoderError env with
  | Some e => (fst (reject e r1), inl e)
  | None => bind (outcome env Flush) k r1
  end.
Proof.
  unfold awaitFlush. rewrite bind_bind, bind_note, bind_bind.
  rewrite bind_outputChunks. cbv zeta.
  destruct (encoderError env) as [e|]; [|reflexivity].
  now rewrite bind_bind, bind_reject, bind_throw.
Qed.

End Steps.

(** Symbolic execution of a conversion: rewrite the next statement, and
    split on what the platform does when the program asks it. *)
Ltac exec_step env :=
  first
    [ rewrite bind_bind
    | rewrite bind_ret
    | rewrite bind_throw
    | rewrite bind_note
    | rewrite (bind_call env)
    | rewrite bind_setCanvas
    | rewrite bind_paint
    | rewrite bind_alloc
    | rewrite bind_reject
    | rewrite (bind_getContext env)
    | rewrite (bind_drawImage env)
    | rewrite (bind_newVideoFrame env)
    | rewrite (bind_awaitFlush env)
    | rewrite (bind_dataAvailable env)
    | rewrite bind_dispatch
    | rewrite bind_executor
    | rewrite (call_run env)
    | rewrite (outcome_run env)
    | rewrite (bind_outcome env) ].

Ltac exec_norm :=
  cbv beta iota zeta;
  cbn [log settle appendCalls store promise canvas trace fst snd
       cv_width cv_height cv_draws app].

Ltac exec_case env :=
  match goal with
  | |- context [match raises env ?c with _ => _ end] =>
      destruct (raises env c) eqn:?
  | |- context [match encoderError env with _ => _ end] =>
      destruct (encoderError env) eqn:?
  | |- context [if context2d env then _ else _] =>
      destruct (context2d env) eqn:?
  | |- context [if canvasMounted env then _ else _] =>
      destruct (canvasMounted env) eqn:?
  end.

Ltac exec env :=
  repeat first [ progress exec_norm | exec_case env | exec_step env ].

Ltac exec_done :=
  cbn [reject resolve ret log settle appendCalls store promise canvas trace
       fst snd app].

Ltac in_calls :=
  repeat first [ apply list_elem_of_here | apply list_elem_of_further ].

Lemma mp4Calls_unfold file img n w h :
  targetSize img = (w, h) ->
  mp4Calls file img n =
  let canvas := {| cv_width := w; cv_height := h;
                   cv_draws := [ {| drawn := img; dx := 0; dy := 0;
                                    dsize := Some (w, h) |} ] |} in
  [ CreateObjectURL_file file;
    NewMuxer "avc" w h "in-memory";
    NewVideoEncoder;
    Configure "avc1.640028" w h 2000000 1;
    NewOffscreenCanvas w h;
    GetContext "2d";
    DrawImage {| drawn := img; dx := 0; dy := 0; dsize := Some (w, h) |};
    NewVideoFrame 0;
    Encode {| vf_pixels := canvas; vf_timestamp := 0 |} true;
    CloseFrame {| vf_pixels := canvas; vf_timestamp := 0 |};
    NewVideoFrame 1000000;
    Encode {| vf_pixels := canvas; vf_timestamp := 1000000 |} false;
    CloseFrame {| vf_pixels := canvas; vf_timestamp := 1000000 |};
    Flush ]
  ++ (AddVideoChunk <$> seq 0 n)
  ++ [ Finalize; NewBlob "video/mp4"; MathRandom; CreateObjectURL_blob ].
Proof.
  intros Et. unfold mp4Calls, firstFrame, lastFrame, paintedCanvas.
  now rewrite Et.
Qed.

Lemma mp4_outcome file env σ :
  let r := runConversion convertImageToMP4 file env σ in
  match promise r with
  | Fulfilled l =>
      l = fresh (dom σ) /\ store r = <[l := mp4Record file env]> σ /\
      exists img, mp4Clean file env img /\
                  trace r = mp4Calls file img (chunks env)
  | Rejected e => store r = σ /\ forall img, ~ mp4Clean file env img
  | Pending => False
  end.
Proof.
  cbv zeta. unfold runConversion, convertImageToMP4, onloadMP4, tryCatch.
  destruct (load env) as [e|img] eqn:El;
    [|destruct (targetSize img) as [w h] eqn:Et].
  all: exec env; exec_done.
  all: try (split; [reflexivity|]; intros img' (Hl & Hc & He & Hr);
            try congruence;
            assert (img' = img) as -> by congruence;
            match goal with
            | E : raises _ ?c = Some _ |- _ =>
                rewrite (Hr c) in E;
                [ discriminate
                | rewrite (mp4Calls_unfold _ _ _ _ _ Et); cbv zeta;
                  cbn [app]; in_calls ]
            end).
  split; [reflexivity|]. split; [reflexivity|]. exists img. split.
  - repeat split; try assumption.
    intros c Hc. rewrite (mp4Calls_unfold _ _ _ _ _ Et) in Hc.
    cbv zeta in Hc. cbn [app seq fmap list_fmap] in Hc.
    repeat (apply elem_of_cons in Hc as [-> | Hc]; [assumption|]).
    now apply elem_of_nil in Hc.
  - rewrite (mp4Calls_unfold _ _ _ _ _ Et). cbv zeta.
    rewrite <- !app_assoc. reflexivity.
Qed.

Lemma webm_outcome file env σ :
  let r := runConversion convertImageToVideo file env σ in
  match promise r with
  | Fulfilled l =>
      l = fresh (dom σ) /\ store r = <[l := webmRecord file env]> σ /\
      exists img, webmClean file env img /\
                  trace r = webmCalls file img (chunks env)
  | Rejected e =>
      store r = σ /\ raises env (CreateObjectURL_file file) = Some e
  | Pending =>
      store r = σ /\ raises env (CreateObjectURL_file file) = None /\
      forall img, ~ webmClean file env img
  end.
Proof.
  cbv zeta. unfold runConversion, convertImageToVideo, onloadWebM, onstop.
  destruct (load env) as [e|img] eqn:El.
  all: exec env; exec_done.
  all: repeat match goal with |- _ /\ _ => split end;
    try reflexivity; try assumption.
  all: try (intros img' (Hl & Hm & Hc & Hr); try congruence;
            assert (img' = img) as -> by congruence;
            match goal with
            | E : raises _ ?c = Some _ |- _ =>
                rewrite (Hr c) in E;
                [ discriminate | unfold webmCalls; cbn [app]; in_calls ]
            end).
  exists img. split.
  - repeat split; try assumption.
    intros c Hc. unfold webmCalls in Hc.
    cbn [app seq fmap list_fmap] in Hc.
    repeat (apply elem_of_cons in Hc as [-> | Hc]; [assumption|]).
    now apply elem_of_nil in Hc.
  - unfold webmCalls. rewrite <- !app_assoc. reflexivity.
Qed.

(** A conversion on which nothing goes wrong fulfils its promise with a new
    record, and makes exactly the expected calls. *)
Lemma mp4_clean_run file env σ img :
  mp4Clean file env img ->
  let r := runConversion convertImageToMP4 file env σ in
  promise r = Fulfilled (fresh (dom σ)) /\
  store r = <[fresh (dom σ) := mp4Record file env]> σ /\
  trace r = mp4Calls file img (chunks env).
Proof.
  intros Hc. cbv zeta. pose proof (mp4_outcome file env σ) as H.
  cbv zeta in H.
  destruct (promise (runConversion convertImageToMP4 file env σ)) as [|l|e].
  - contradiction.
  - destruct H as (-> & Hs & img' & Hc' & Ht).
    assert (img' = img) as ->.
    { destruct Hc as [Hl _], Hc' as [Hl' _]. congruence. }
    auto.
  - destruct H as [_ H]. now apply H in Hc.
Qed.

Lemma webm_clean_run file env σ img :
  webmClean file env img ->
  let r := runConversion convertImageToVideo file env σ in
  promise r = Fulfilled (fresh (dom σ)) /\
  store r = <[fresh (dom σ) := webmRecord file env]> σ /\
  trace r = webmCalls file img (chunks env).
Proof.
  intros Hc. cbv zeta. pose proof (webm_outcome file env σ) as H.
  cbv zeta in H.
  destruct (promise (runConversion convertImageToVideo file env σ)) as [|l|e].
  - destruct H as (_ & _ & H). now apply H in Hc.
  - destruct H as (-> & Hs & img' & Hc' & Ht).
    assert (img' = img) as ->.
    { destruct Hc as [Hl _], Hc' as [Hl' _]. congruence. }
    auto.
  - destruct H as [_ H]. destruct Hc as (_ & _ & _ & Hr).
    rewrite Hr in H; [discriminate|]. unfold webmCalls. cbn [app]. in_calls.
Qed.

(** Any failure on the MP4 path rejects the promise. *)
Lemma mp4_failure_rejects file env σ :
  (forall img, ~ mp4Clean file env img) ->
  exists e, promise (runConversion convertImageToMP4 file env σ) = Rejected e.
Proof.
  intros Hf. pose proof (mp4_outcome file env σ) as H. cbv zeta in H.
  destruct (promise (runConversion convertImageToMP4 file env σ)) as [|l|e].
  - contradiction.
  - destruct H as (_ & _ & img & Hc & _). now apply Hf in Hc.
  - now exists e.
Qed.

(** ** The upload loop, for any converter

    What the loop needs of a converter: run against a store, it either
    fulfils its promise with a new record at a new reference, or does not
    fulfil it and leaves the store alone; which of the two depends on the
    file and the platform, not on the store. *)

Section Upload.

Context (convert : Converter).
Context (record : File -> Platform -> ConvertedVideo).
Context (clean : File -> Platform -> Prop).

Hypothesis convert_cases : forall file env (σ : gmap ref ConvertedVideo),
  let r := runConversion convert file env σ in
  (clean file env /\ promise r = Fulfilled (fresh (dom σ)) /\
   store r = <[fresh (dom σ) := record file env]> σ)
  \/
  (~ clean file env /\ (forall l, promise r <> Fulfilled l) /\ store r = σ).

(** The loop converts a prefix of the files: all of them when it returns,
    else the files before the first one that does not convert.  It adds
    one new record for each file of that prefix and touches nothing
    else. *)
Lemma convertEach_spec files : forall acc w,
  exists added w' c,
    convertEach convert files acc w = (w', acc ++ added, c) /\
    app w' = app w /\
    Forall (onFile clean) (take (length added) files) /\
    entries w' added = (entryOf record) <$> take (length added) files /\
    objects w ⊆ objects w' /\
    NoDup added /\
    (forall l, l ∈ added -> objects w !! l = None) /\
    size (objects w') = (size (objects w) + length added)%nat /\
    match c with
    | Returned => length added = length files
    | Thrown e =>
        exists fe, files !! length added = Some fe /\ ~ (onFile clean) fe /\
          promise (runConversion convert fe.1 fe.2 (objects w')) = Rejected e
    | Suspended =>
        exists fe, files !! length added = Some fe /\ ~ (onFile clean) fe /\
          promise (runConversion convert fe.1 fe.2 (objects w')) = Pending
    end.
Proof.
  induction files as [|[file env] rest IH]; intros acc w.
  - exists [], w, Returned. cbn. rewrite app_nil_r.
    repeat split; auto using NoDup_nil_2.
    intros l Hl. now apply elem_of_nil in Hl.
  - cbn [convertEach].
    destruct (convert_cases file env (objects w))
      as [(Hc & Hp & Hs) | (Hc & Hp & Hs)]; cbv zeta in Hp, Hs.
    + rewrite Hp.
      set (l := fresh (dom (objects w))) in *.
      set (w1 := {| objects := store _; app := app w; calls := _ |}).
      assert (objects w !! l = None) as Hfresh.
      { apply not_elem_of_dom. apply is_fresh. }
      assert (objects w1 !! l = Some (record file env)) as Hl.
      { subst w1. cbn. rewrite Hs. apply lookup_insert_eq. }
      assert (objects w ⊆ objects w1) as Hsub.
      { subst w1. cbn. rewrite Hs. now apply insert_subseteq. }
      assert (size (objects w1) = S (size (objects w))) as Hsize.
      { subst w1. cbn. rewrite Hs. now apply map_size_insert_None. }
      destruct (IH (acc ++ [l]) w1)
        as (added & w' & c & He & Ha & Hf & Hen & Hsub' & Hnd & Hnew
            & Hsz & Hc').
      exists (l :: added), w', c.
      rewrite He, <- app_assoc. cbn [length take app].
      repeat split.
      * exact Ha.
      * constructor; assumption.
      * unfold entries in *. rewrite !fmap_cons.
        f_equal; [|exact Hen].
        eapply lookup_weaken; eauto.
      * etransitivity; eauto.
      * constructor; [|assumption].
        intros Hin. apply Hnew in Hin. congruence.
      * intros l' [-> | Hin]%elem_of_cons; [assumption|].
        eapply lookup_weaken_None; eauto.
      * rewrite Hsz, Hsize. lia.
      * destruct c; [now f_equal | exact Hc' | exact Hc'].
    + set (w1 := {| objects := store _; app := app w; calls := _ |}).
      assert (objects w1 = objects w) as Hw1 by exact Hs.
      assert (exists c,
                match promise (runConversion convert file env (objects w))
                with
                | Fulfilled video =>
                    convertEach convert rest (acc ++ [video]) w1
                | Rejected e => (w1, acc, Thrown e)
                | Pending => (w1, acc, Suspended)
                end = (w1, acc, c) /\
                match c with
                | Returned => False
                | Thrown e =>
                    promise (runConversion convert file env (objects w))
                    = Rejected e
                | Suspended =>
                    promise (runConversion convert file env (objects w))
                    = Pending
                end) as (c & -> & Hpc).
      { destruct (promise _) as [|v|e].
        - now exists Suspended.
        - now destruct (Hp v).
        - now exists (Thrown e). }
      exists [], w1, c. rewrite app_nil_r. cbn [length take].
      repeat split; auto using NoDup_nil_2.
      * now rewrite Hw1.
      * intros l Hl. now apply elem_of_nil in Hl.
      * rewrite Hw1. lia.
      * destruct c; [contradiction | |]; exists (file, env);
          cbn [fst snd]; rewrite Hw1; auto.
Qed.

End Upload.

Lemma mp4_convert_cases file env (σ : gmap ref ConvertedVideo) :
  let r := runConversion convertImageToMP4 file env σ in
  (mp4CleanFile file env /\ promise r = Fulfilled (fresh (dom σ)) /\
   store r = <[fresh (dom σ) := mp4Record file env]> σ)
  \/
  (~ mp4CleanFile file env /\ (forall l, promise r <> Fulfilled l) /\
   store r = σ).
Proof.
  cbv zeta. pose proof (mp4_outcome file env σ) as H. cbv zeta in H.
  destruct (promise (runConversion convertImageToMP4 file env σ)) as [|l|e].
  - contradiction.
  - destruct H as (-> & Hs & img & Hc & _). left.
    split; [now exists img | auto].
  - destruct H as [Hs Hf]. right. split; [|split; [discriminate | exact Hs]].
    intros [img Hc]. now apply Hf in Hc.
Qed.

Lemma webm_convert_cases file env (σ : gmap ref ConvertedVideo) :
  let r := runConversion convertImageToVideo file env σ in
  (webmCleanFile file env /\ promise r = Fulfilled (fresh (dom σ)) /\
   store r = <[fresh (dom σ) := webmRecord file env]> σ)
  \/
  (~ webmCleanFile file env /\ (forall l, promise r <> Fulfilled l) /\
   store r = σ).
Proof.
  cbv zeta. pose proof (webm_outcome file env σ) as H. cbv zeta in H.
  destruct (promise (runConversion convertImageToVideo file env σ)) as [|l|e].
  - destruct H as (Hs & _ & Hf). right.
    split; [|split; [discriminate | exact Hs]].
    intros [img Hc]. now apply Hf in Hc.
  - destruct H as (-> & Hs & img & Hc & _). left.
    split; [now exists img | auto].
  - destruct H as [Hs Hr]. right. split; [|split; [discriminate | exact Hs]].
    intros [img (_ & _ & _ & Hc)]. rewrite Hc in Hr; [discriminate|].
    unfold webmCalls. cbn [app]. in_calls.
Qed.

Lemma mp4_converts_clean fe :
  converts convertImageToMP4 fe <-> onFile mp4CleanFile fe.
Proof.
  destruct fe as [file env]. unfold converts, onFile. cbn [fst snd]. split.
  - intros H. destruct (H ∅) as [l Hl].
    destruct (mp4_convert_cases file env ∅) as [(Hc & _) | (_ & Hn & _)];
      [exact Hc | now destruct (Hn l)].
  - intros Hc σ.
    destruct (mp4_convert_cases file env σ) as [(_ & Hp & _) | (Hn & _)];
      [eauto | contradiction].
Qed.

Lemma mp4_fails_not_clean fe :
  failsToConvert convertImageToMP4 fe -> ~ onFile mp4CleanFile fe.
Proof.
  intros H Hc. apply mp4_converts_clean in Hc.
  destruct (H ∅) as [e He], (Hc ∅) as [l Hl]. congruence.
Qed.

(** ** [handleFileUpload] *)

Lemma mp4_upload_loop files acc w :
  exists added w' c,
    convertEach convertImageToMP4 files acc w = (w', acc ++ added, c) /\
    app w' = app w /\
    Forall (onFile mp4CleanFile) (take (length added) files) /\
    entries w' added = entryOf mp4Record <$> take (length added) files /\
    objects w ⊆ objects w' /\
    NoDup added /\
    (forall l, l ∈ added -> objects w !! l = None) /\
    size (objects w') = (size (objects w) + length added)%nat /\
    match c with
    | Returned => length added = length files
    | Thrown e =>
        exists fe, files !! length added = Some fe /\
          ~ onFile mp4CleanFile fe /\
          promise (runConversion convertImageToMP4 fe.1 fe.2 (objects w'))
          = Rejected e
    | Suspended => False
    end.
Proof.
  destruct (convertEach_spec convertImageToMP4 mp4Record mp4CleanFile
              mp4_convert_cases files acc w)
    as (added & w' & c & H1 & H2 & H3 & H4 & H5 & H6 & H7 & H8 & H9).
  exists added, w', c. repeat split; try assumption.
  destruct c; try assumption.
  destruct H9 as ([file env] & _ & _ & Hp). cbn [fst snd] in Hp.
  pose proof (mp4_outcome file env (objects w')) as Ho. cbv zeta in Ho.
  now rewrite Hp in Ho.
Qed.

(** C3.  An upload of N files that all convert adds exactly N entries to the
    result list, as one block in front of the entries that were there, and
    inside the block the entries stand in the order of the files. *)
Theorem upload_prepends_new_entries (files : list (File * Platform)) (w : World) :
  Forall (converts convertImageToMP4) files ->
  exists news w',
    handleFileUpload (Some files) w = (w', Returned) /\
    videos (app w') = news ++ videos (app w) /\
    length news = length files /\
    entries w' news = entryOf mp4Record <$> files /\
    NoDup news /\
    (forall l, l ∈ news -> objects w !! l = None).
Proof.
  intros Hall. unfold handleFileUpload, handleFileUploadWith.
  destruct (mp4_upload_loop files [] (setIsProcessing true w))
    as (added & w' & c & He & Ha & Hf & Hen & Hsub & Hnd & Hnew & Hsz & Hc).
  rewrite He. cbn [app].
  destruct c as [|e|]; [| |contradiction].
  - exists added, (setIsProcessing false (setVideos (fun prev => added ++ prev) w')).
    rewrite Hc, firstn_all in Hen.
    repeat split; try assumption.
    cbn. now rewrite Ha.
  - exfalso. destruct Hc as (fe & Hl & Hn & _). apply Hn.
    apply mp4_converts_clean.
    eapply Forall_lookup_1; eauto.
Qed.

Lemma okPlatform_mp4Clean file img : mp4Clean file (okPlatform img) img.
Proof. repeat split. Qed.

Lemma okPlatform_webmClean file img : webmClean file (okPlatform img) img.
Proof. repeat split. Qed.

Lemma okPlatform_converts file img :
  converts convertImageToMP4 (file, okPlatform img).
Proof.
  apply mp4_converts_clean. exists img. apply okPlatform_mp4Clean.
Qed.

Lemma brokenPlatform_fails file :
  failsToConvert convertImageToMP4 (file, brokenPlatform).
Proof.
  intros σ. cbn [fst snd]. apply mp4_failure_rejects.
  intros img [Hl _]. discriminate.
Qed.

Lemma goodBatch_converts : Forall (converts convertImageToMP4) goodBatch.
Proof. repeat constructor; apply okPlatform_converts. Qed.

Lemma upload_prepends_new_entries_witness :
  exists news w',
    handleFileUpload (Some goodBatch) emptyWorld = (w', Returned) /\
    videos (app w') = news ++ [] /\
    length news = 2%nat /\
    entries w' news = [ Some (mp4Record photo (okPlatform fullHD));
                        Some (mp4Record scan (okPlatform icon)) ].
Proof.
  destruct (upload_prepends_new_entries goodBatch emptyWorld
              goodBatch_converts)
    as (news & w' & H1 & H2 & H3 & H4 & _).
  exists news, w'. auto.
Defined.

(** The loop stops at the first file that does not convert. *)
Lemma first_failure_index {A} (P : A -> Prop) (before after : list A) fe k fe' :
  Forall P before -> ~ P fe ->
  Forall P (take k (before ++ fe :: after)) ->
  (before ++ fe :: after) !! k = Some fe' -> ~ P fe' ->
  k = length before.
Proof.
  intros Hb Hfe Htake Hk Hfe'.
  destruct (Nat.lt_trichotomy k (length before)) as [Hlt | [Heq | Hgt]];
    [exfalso | exact Heq | exfalso].
  - rewrite lookup_app_l in Hk by exact Hlt.
    apply Hfe'. eapply Forall_lookup_1; [exact Hb | exact Hk].
  - apply Hfe. eapply Forall_lookup_1; [exact Htake|].
    rewrite lookup_take_lt by exact Hgt.
    apply list_lookup_middle. reflexivity.
Qed.

(** C4, as the code has it.  When a file of an upload fails to convert and
    the files before it converted, the conversions of those earlier files
    ran to their end and their records exist, but none of them reaches the
    result list: the call ends by throwing at the failing file, the list is
    the list from before the upload, and the processing flag stays set.
    The files after the failing one are not converted. *)
Theorem failed_upload_leaves_list_unchanged
    (before after : list (File * Platform)) (fe : File * Platform) (w : World) :
  Forall (converts convertImageToMP4) before ->
  failsToConvert convertImageToMP4 fe ->
  exists done w' e,
    handleFileUpload (Some (before ++ fe :: after)) w = (w', Thrown e) /\
    length done = length before /\
    entries w' done = entryOf mp4Record <$> before /\
    (forall l, l ∈ done -> objects w !! l = None) /\
    objects w ⊆ objects w' /\
    size (objects w') = (size (objects w) + length before)%nat /\
    videos (app w') = videos (app w) /\
    isProcessing (app w') = true.
Proof.
  intros Hb Hfe. unfold handleFileUpload, handleFileUploadWith.
  destruct (mp4_upload_loop (before ++ fe :: after) []
              (setIsProcessing true w))
    as (added & w' & c & He & Ha & Hf & Hen & Hsub & Hnd & Hnew & Hsz & Hc).
  rewrite He. cbn [app].
  assert (Forall (onFile mp4CleanFile) before) as Hb'.
  { eapply Forall_impl; [exact Hb|]. intros x. apply mp4_converts_clean. }
  pose proof (mp4_fails_not_clean fe Hfe) as Hfe'.
  destruct c as [|e|]; [exfalso | | contradiction].
  - rewrite Hc, firstn_all in Hf.
    apply Forall_app in Hf as [_ Hf]. apply Forall_cons in Hf as [Hf _].
    contradiction.
  - destruct Hc as (fe' & Hl & Hn & _).
    assert (length added = length before) as Hk.
    { eapply first_failure_index; eauto. }
    rewrite Hk, take_app_length in Hen.
    exists added, w', e. rewrite Ha, <- Hk.
    repeat split; assumption.
Qed.

Lemma badBatch_before_converts :
  Forall (converts convertImageToMP4) [ (photo, okPlatform fullHD) ].
Proof. repeat constructor; apply okPlatform_converts. Qed.

Lemma failed_upload_leaves_list_unchanged_witness :
  exists w' e,
    handleFileUpload (Some badBatch) emptyWorld = (w', Thrown e) /\
    size (objects w') = 1%nat /\
    videos (app w') = [] /\
    isProcessing (app w') = true.
Proof.
  destruct (failed_upload_leaves_list_unchanged
              [ (photo, okPlatform fullHD) ] [ (scan, okPlatform icon) ]
              (broken, brokenPlatform) emptyWorld
              badBatch_before_converts (brokenPlatform_fails broken))
    as (done & w' & e & H1 & _ & _ & _ & _ & H2 & H3 & H4).
  exists w', e. auto.
Defined.

(** C4 in its original wording does not hold: in a batch whose second file
    is unreadable, the first file converts, yet the result list holds no
    entry for it. *)
Lemma failed_upload_drops_earlier_entry :
  converts convertImageToMP4 (photo, okPlatform fullHD) /\
  failsToConvert convertImageToMP4 (broken, brokenPlatform) /\
  let w' := (handleFileUpload (Some badBatch) emptyWorld).1 in
  ~ exists l, l ∈ videos (app w') /\
              objects w' !! l = Some (mp4Record photo (okPlatform fullHD)).
Proof.
  split; [apply okPlatform_converts|].
  split; [apply brokenPlatform_fails|].
  cbv zeta. intros (l & Hl & _).
  assert (videos (app (handleFileUpload (Some badBatch) emptyWorld).1) = [])
    as Hv by (vm_compute; reflexivity).
  rewrite Hv in Hl. now apply elem_of_nil in Hl.
Qed.

(** C8.  Whatever the platform does with the files of an upload: one record
    is created, at a new reference, for each file that converted (the files
    up to the first one that does not convert, all of them when there is
    none), and no other; no record that existed before is changed or
    removed; and the result list keeps its old entries, in their order,
    behind whatever is added. *)
Theorem records_created_once_never_mutated
    (files : option (list (File * Platform))) (w : World) :
  let w' := (handleFileUpload files w).1 in
  let batch := default [] files in
  exists created news,
    NoDup created /\
    (forall l, l ∈ created -> objects w !! l = None) /\
    Forall (converts convertImageToMP4) (take (length created) batch) /\
    entries w' created = entryOf mp4Record <$> take (length created) batch /\
    size (objects w') = (size (objects w) + length created)%nat /\
    (length created = length batch \/
     exists fe, batch !! length created = Some fe /\
                ~ converts convertImageToMP4 fe) /\
    (forall l v, objects w !! l = Some v -> objects w' !! l = Some v) /\
    videos (app w') = news ++ videos (app w) /\
    (forall i l v,
        videos (app w) !! i = Some l -> objects w !! l = Some v ->
        videos (app w') !! (length news + i)%nat = Some l /\
        objects w' !! l = Some v).
Proof.
  cbv zeta. destruct files as [files|]; cbn [default].
  2: { exists [], []. cbn.
       repeat split; auto using NoDup_nil_2.
       intros l Hl. now apply elem_of_nil in Hl. }
  unfold handleFileUpload, handleFileUploadWith.
  destruct (mp4_upload_loop files [] (setIsProcessing true w))
    as (added & w' & c & He & Ha & Hf & Hen & Hsub & Hnd & Hnew & Hsz & Hc).
  rewrite He. cbn [app].
  assert (Forall (converts convertImageToMP4) (take (length added) files))
    as Hconv.
  { eapply Forall_impl; [exact Hf|]. intros x. apply mp4_converts_clean. }
  assert (forall l v, objects w !! l = Some v -> objects w' !! l = Some v)
    as Hkeep.
  { intros l v Hl. eapply lookup_weaken; eauto. }
  destruct c as [|e|]; [| |contradiction]; cbn [fst].
  - exists added, added. cbn.
    repeat split; try assumption; auto.
    + now rewrite Ha.
    + rewrite Ha. cbn. rewrite lookup_app_r by lia.
      now replace (length added + i - length added)%nat with i by lia.
  - exists added, []. rewrite Ha. cbn.
    repeat split; try assumption; auto.
    right. destruct Hc as (fe & Hl & Hn & _). exists fe. split; [exact Hl|].
    intros Hcv. apply Hn. now apply mp4_converts_clean.
Qed.

Lemma records_created_once_never_mutated_witness :
  exists created news : list ref,
    NoDup created /\
    size (objects (handleFileUpload (Some goodBatch) emptyWorld).1)
    = (0 + length created)%nat /\
    videos (app (handleFileUpload (Some goodBatch) emptyWorld).1)
    = news ++ [].
Proof.
  destruct (records_created_once_never_mutated (Some goodBatch) emptyWorld)
    as (created & news & H1 & _ & _ & _ & H2 & _ & _ & H3 & _).
  exists created, news. auto.
Defined.

(** ** The result name *)

Lemma restOfExtension_no_dot_no_slash (s : string) :
  RegExp.restOfExtension s = true <->
  NameSpec.splitLastDot s = None /\ NameSpec.hasSlash s = false.
Proof.
  induction s as [|c r IH]; cbn; [tauto|].
  unfold RegExp.notSlashDot.
  destruct (Ascii.eqb c "/") eqn:Es, (Ascii.eqb c ".") eqn:Ed; cbn;
    destruct (NameSpec.splitLastDot r) as [[b e]|]; cbn;
    intuition congruence.
Qed.

Lemma matchesHere_spec (c : ascii) (r : string) :
  RegExp.matchesHere (String c r) = true <->
  c = "."%char /\ r <> EmptyString /\
  NameSpec.splitLastDot r = None /\ NameSpec.hasSlash r = false.
Proof.
  rewrite <- restOfExtension_no_dot_no_slash.
  destruct r as [|c' r']; cbn.
  - intuition congruence.
  - destruct (Ascii.eqb_spec c "."); cbn; [|intuition congruence].
    rewrite andb_true_iff. intuition congruence.
Qed.

(** The pattern cuts the name at its last dot, when something other than a
    slash-holding or empty tail follows it. *)
Lemma replaceExtension_strips_final_extension (s : string) :
  RegExp.replaceExtension s = NameSpec.stripFinalExtension s.
Proof.
  induction s as [|c r IH]; [reflexivity|].
  cbn [RegExp.replaceExtension].
  destruct (RegExp.matchesHere (String c r)) eqn:Em.
  - apply matchesHere_spec in Em as (-> & Hne & Hd & Hs).
    unfold NameSpec.stripFinalExtension. cbn. rewrite Hd, Hs. cbn.
    destruct r; [congruence | reflexivity].
  - rewrite IH. unfold NameSpec.stripFinalExtension.
    cbn [NameSpec.splitLastDot].
    destruct (NameSpec.splitLastDot r) as [[b e]|] eqn:Hd.
    + now destruct (negb (e =? "")%string && negb (NameSpec.hasSlash e)).
    + destruct (Ascii.eqb_spec c "."); [|reflexivity]. subst c.
      destruct (negb (r =? "")%string && negb (NameSpec.hasSlash r)) eqn:Ok;
        [|reflexivity].
      exfalso. apply andb_true_iff in Ok as [Hne Hs].
      apply negb_true_iff in Hne, Hs. apply String.eqb_neq in Hne.
      assert (RegExp.matchesHere (String "." r) = true) as Hm
        by (apply matchesHere_spec; auto).
      congruence.
Qed.

Lemma restOfExtension_dot (base ext : string) :
  RegExp.restOfExtension (base +:+ String "." ext) = false.
Proof.
  induction base as [|c b IH].
  - reflexivity.
  - change (String c b +:+ String "." ext)
      with (String c (b +:+ String "." ext)).
    cbn [RegExp.restOfExtension]. rewrite IH. apply andb_false_r.
Qed.

(** A name [base.ext], with [ext] not empty and free of dots and slashes,
    is cut to [base]. *)
Lemma replaceExtension_cut (base ext : string) :
  ext <> EmptyString -> RegExp.restOfExtension ext = true ->
  RegExp.replaceExtension (base +:+ String "." ext) = base.
Proof.
  intros Hne Hext. induction base as [|c b IH].
  - destruct ext as [|c' e']; [congruence|].
    change (EmptyString +:+ String "." (String c' e'))
      with (String "." (String c' e')).
    cbn [RegExp.replaceExtension RegExp.matchesHere].
    cbn [RegExp.restOfExtension] in Hext.
    rewrite Ascii.eqb_refl. cbn [andb]. now rewrite Hext.
  - change (String c b +:+ String "." ext)
      with (String c (b +:+ String "." ext)).
    cbn [RegExp.replaceExtension].
    destruct (RegExp.matchesHere (String c (b +:+ String "." ext))) eqn:Em.
    + exfalso. destruct b as [|c' b'].
      * cbn in Em. apply andb_true_iff in Em as [Em _].
        apply andb_true_iff in Em as [_ Em].
        unfold RegExp.notSlashDot in Em. cbn in Em. discriminate.
      * change (String c' b' +:+ String "." ext)
          with (String c' (b' +:+ String "." ext)) in Em.
        cbn [RegExp.matchesHere] in Em.
        rewrite restOfExtension_dot in Em.
        now rewrite andb_false_r in Em.
    + now rewrite IH.
Qed.

(** A name with no such extension is kept whole. *)
Lemma replaceExtension_keep (s : string) :
  (forall base ext, s = (base +:+ String "." ext) ->
     ext = EmptyString \/ RegExp.restOfExtension ext = false) ->
  RegExp.replaceExtension s = s.
Proof.
  induction s as [|c r IH]; intros Hno; [reflexivity|].
  cbn [RegExp.replaceExtension].
  destruct (RegExp.matchesHere (String c r)) eqn:Em.
  - exfalso. destruct r as [|c' r']; [discriminate|]. cbn in Em.
    apply andb_true_iff in Em as [Em Hr].
    apply andb_true_iff in Em as [Hc Hc'].
    apply Ascii.eqb_eq in Hc. subst c.
    destruct (Hno EmptyString (String c' r') eq_refl) as [H|H];
      [discriminate|].
    cbn in H. rewrite Hc', Hr in H. discriminate.
  - f_equal. apply IH. intros base ext ->.
    apply (Hno (String c base) ext). reflexivity.
Qed.

(** C5.  For every file, the name of the record its conversion resolves
    with, which the gallery shows as the caption of the card and sets as the
    [download] attribute of its link, is the name of the file with its
    final extension stripped and the extension of the output format
    appended: [.mp4] on the MP4 path, [.webm] on the WebM path. *)
Theorem result_name_is_base_name_plus_extension
    (file : File) (env : Platform) (σ : gmap ref ConvertedVideo)
    (l : ref) (v : ConvertedVideo) :
  (promise (runConversion convertImageToMP4 file env σ) = Fulfilled l ->
   store (runConversion convertImageToMP4 file env σ) !! l = Some v ->
   name v = (NameSpec.stripFinalExtension (file_name file) +:+ ".mp4") /\
   card_caption (renderCard v) = name v /\
   card_download (renderCard v) = name v)
  /\
  (promise (runConversion convertImageToVideo file env σ) = Fulfilled l ->
   store (runConversion convertImageToVideo file env σ) !! l = Some v ->
   name v = (NameSpec.stripFinalExtension (file_name file) +:+ ".webm") /\
   card_caption (renderCard v) = name v /\
   card_download (renderCard v) = name v).
Proof.
  split; intros Hp Hl.
  - pose proof (mp4_outcome file env σ) as H. cbv zeta in H.
    rewrite Hp in H. destruct H as (-> & Hs & _).
    rewrite Hs, lookup_insert_eq in Hl. injection Hl as <-.
    cbn. unfold resultName.
    now rewrite replaceExtension_strips_final_extension.
  - pose proof (webm_outcome file env σ) as H. cbv zeta in H.
    rewrite Hp in H. destruct H as (-> & Hs & _).
    rewrite Hs, lookup_insert_eq in Hl. injection Hl as <-.
    cbn. unfold resultName.
    now rewrite replaceExtension_strips_final_extension.
Qed.

Lemma result_name_is_base_name_plus_extension_witness :
  name (mp4Record scan (okPlatform icon)) = "scan.final.mp4" /\
  name (webmRecord scan (okPlatform icon)) = "scan.final.webm".
Proof.
  pose proof (result_name_is_base_name_plus_extension
                scan (okPlatform icon) ∅ 1%positive
                (mp4Record scan (okPlatform icon))) as [Hm _].
  pose proof (result_name_is_base_name_plus_extension
                scan (okPlatform icon) ∅ 1%positive
                (webmRecord scan (okPlatform icon))) as [_ Hw].
  split.
  - apply Hm; vm_compute; reflexivity.
  - apply Hw; vm_compute; reflexivity.
Defined.

(** ** The calls made on the encoder *)

Lemma encoderCalls_chunks (f : nat -> Call) (ns : list nat) :
  (forall n, isEncoderCall (f n) = false) ->
  List.filter isEncoderCall (f <$> ns) = [].
Proof.
  intros Hf. induction ns as [|n ns IH]; [reflexivity|].
  rewrite fmap_cons. cbn [List.filter]. now rewrite Hf.
Qed.

Lemma mp4Calls_encoderCalls file img n :
  List.filter isEncoderCall (mp4Calls file img n) =
  [ Encode (firstFrame img) true; Encode (lastFrame img) false;
    Flush; Finalize ].
Proof.
  unfold mp4Calls. destruct (targetSize img) as [w h].
  rewrite !List.filter_app, encoderCalls_chunks by reflexivity.
  reflexivity.
Qed.

(** C6.  For every image that decodes, on a platform where no call of the
    conversion fails, the MP4 path makes exactly these calls on the encoder
    and the muxer's finalizer, in this order: it encodes a frame with
    timestamp 0 as a key frame, encodes a frame with timestamp 1,000,000
    (microseconds), flushes the encoder, finalizes the muxer.  The two
    frames are snapshots of the same canvas with nothing drawn in between:
    the image, drawn once at the target size. *)
Theorem mp4_encodes_two_identical_frames
    (file : File) (env : Platform) (σ : gmap ref ConvertedVideo) (img : Image) :
  mp4Clean file env img ->
  let r := runConversion convertImageToMP4 file env σ in
  List.filter isEncoderCall (trace r) =
    [ Encode (firstFrame img) true; Encode (lastFrame img) false;
      Flush; Finalize ] /\
  vf_pixels (firstFrame img) = vf_pixels (lastFrame img) /\
  vf_timestamp (firstFrame img) = 0 /\
  vf_timestamp (lastFrame img) - vf_timestamp (firstFrame img) = 1000000 /\
  cv_draws (vf_pixels (firstFrame img)) =
    [ {| drawn := img; dx := 0; dy := 0; dsize := Some (targetSize img) |} ].
Proof.
  intros Hc. cbv zeta.
  destruct (mp4_clean_run file env σ img Hc) as (_ & _ & ->).
  split; [apply mp4Calls_encoderCalls|].
  repeat split. unfold firstFrame, paintedCanvas.
  now destruct (targetSize img).
Qed.

Lemma mp4_encodes_two_identical_frames_witness :
  List.filter isEncoderCall
    (trace (runConversion convertImageToMP4 photo (okPlatform fullHD) ∅)) =
  [ Encode (firstFrame fullHD) true; Encode (lastFrame fullHD) false;
    Flush; Finalize ].
Proof.
  apply (mp4_encodes_two_identical_frames photo (okPlatform fullHD) ∅ fullHD).
  repeat split.
Defined.

Lemma mp4_encoder_calls_prefix file env σ img :
  load env = inr img ->
  List.filter isEncoderCall
    (trace (runConversion convertImageToMP4 file env σ))
  `prefix_of`
  [ Encode (firstFrame img) true; Encode (lastFrame img) false;
    Flush; Finalize ].
Proof.
  intros El. unfold runConversion, convertImageToMP4, onloadMP4, tryCatch.
  rewrite El. unfold firstFrame, lastFrame, paintedCanvas.
  destruct (targetSize img) as [w h] eqn:Et.
  exec env; exec_done.
  all: rewrite ?List.filter_app, ?encoderCalls_chunks by reflexivity;
    cbn [List.filter isEncoderCall app].
  all: try apply prefix_nil.
  all: repeat apply prefix_cons; try apply prefix_nil; try reflexivity.
Qed.

(** ** Degenerate sizes *)

Lemma targetSize_pixel : targetSize pixel = (0, 0).
Proof. reflexivity. Qed.

(** C10.  The size computation does not keep the dimensions positive: the
    image of 1 x 1 pixels passes the clamp unchanged, the even-forcing step
    takes each odd dimension 1 down to 0, and the size 0 x 0 is what the
    MP4 path hands to the muxer and, when the muxer and the encoder were
    constructed, to the configuration of the encoder. *)
Theorem zero_size_reaches_muxer_and_encoder :
  (0 < img_width pixel)%N /\ (0 < img_height pixel)%N /\
  clampLongEdge 1 1 = (1, 1) /\ forceEven 1 = 0 /\
  targetSize pixel = (0, 0) /\
  forall file env σ,
    load env = inr pixel ->
    raises env (CreateObjectURL_file file) = None ->
    let r := runConversion convertImageToMP4 file env σ in
    NewMuxer "avc" 0 0 "in-memory" ∈ trace r /\
    (raises env (NewMuxer "avc" 0 0 "in-memory") = None ->
     raises env NewVideoEncoder = None ->
     Configure "avc1.640028" 0 0 2000000 1 ∈ trace r).
Proof.
  do 5 (split; [reflexivity|]).
  intros file env σ El Hurl. cbv zeta.
  unfold runConversion, convertImageToMP4, onloadMP4, tryCatch.
  rewrite El, targetSize_pixel.
  exec env; exec_done.
  all: try congruence.
  all: split; [in_calls | intros Hm He; try congruence; in_calls].
Qed.

Lemma zero_size_reaches_muxer_and_encoder_witness :
  NewMuxer "avc" 0 0 "in-memory"
    ∈ trace (runConversion convertImageToMP4 photo (okPlatform pixel) ∅) /\
  Configure "avc1.640028" 0 0 2000000 1
    ∈ trace (runConversion convertImageToMP4 photo (okPlatform pixel) ∅).
Proof.
  destruct zero_size_reaches_muxer_and_encoder as (_ & _ & _ & _ & _ & H).
  destruct (H photo (okPlatform pixel) ∅ eq_refl eq_refl) as [Hm Hc].
  split; [exact Hm | exact (Hc eq_refl eq_refl)].
Defined.

Lemma forceEven_round_thin (h : Z) :
  1280 < h -> forceEven (JS.Math_round_div (1 * 1280) h) = 0.
Proof.
  intros Hh.
  pose proof (Math_round_div_bounds (1 * 1280) h ltac:(lia)) as Hb.
  pose proof (Math_round_div_nonneg (1 * 1280) h ltac:(lia) ltac:(lia)) as Hn.
  assert (JS.Math_round_div (1 * 1280) h = 0 \/
          JS.Math_round_div (1 * 1280) h = 1) as [-> | ->] by nia;
    reflexivity.
Qed.

(** Every image of width 1 or of height 1 gets a zero dimension. *)
Lemma thin_image_gets_zero_dimension (img : Image) :
  img_width img = 1%N \/ img_height img = 1%N ->
  (targetSize img).1 = 0 \/ (targetSize img).2 = 0.
Proof.
  rewrite targetSize_unfold. cbn [fst snd].
  destruct img as [w h]. cbn [img_width img_height].
  intros [-> | ->]; [left | right]; unfold clampLongEdge, MAX_SIZE;
    change (Z.of_N 1) with 1; change (1 >? 1280) with false.
  - cbn [orb].
    destruct (Z.gtb_spec (Z.of_N h) 1280); [|reflexivity].
    destruct (Z.gtb_spec 1 (Z.of_N h)); [lia|]. cbn [fst].
    now apply forceEven_round_thin.
  - rewrite orb_false_r.
    destruct (Z.gtb_spec (Z.of_N w) 1280); [|reflexivity].
    destruct (Z.gtb_spec (Z.of_N w) 1); [|lia]. cbn [snd].
    now apply forceEven_round_thin.
Qed.

(** ** Failures on the WebM path *)

(** C2, on the WebM path.  [convertImageToVideo] builds its promise with
    [resolve] alone, registers no [onerror] handler and has no [try]: once
    the executor has run, any failure (an image that does not decode, a
    missing canvas or context, a call that throws in [onload], in the timer
    callback or in [onstop]) leaves the promise pending; it does not
    reject. *)
Theorem webm_failure_leaves_promise_pending
    (file : File) (env : Platform) (σ : gmap ref ConvertedVideo) :
  raises env (CreateObjectURL_file file) = None ->
  (forall img, ~ webmClean file env img) ->
  promise (runConversion convertImageToVideo file env σ) = Pending.
Proof.
  intros Hurl Hf. pose proof (webm_outcome file env σ) as H. cbv zeta in H.
  destruct (promise (runConversion convertImageToVideo file env σ)) as [|l|e].
  - reflexivity.
  - destruct H as (_ & _ & img & Hc & _). now apply Hf in Hc.
  - destruct H as [_ H]. congruence.
Qed.

Lemma webm_failure_leaves_promise_pending_witness :
  promise (runConversion convertImageToVideo broken brokenPlatform ∅)
  = Pending.
Proof.
  apply webm_failure_leaves_promise_pending; [reflexivity|].
  intros img [Hl _]. discriminate Hl.
Defined.

(** The same unreadable file on the MP4 path rejects. *)
Lemma mp4_unreadable_image_rejects :
  promise (runConversion convertImageToMP4 broken brokenPlatform ∅)
  = Rejected "error".
Proof. reflexivity. Qed.

(** What [muxer.addVideoChunk] throws inside the [output] callback is not a
    failure of the conversion in the sense above: the callback is run by
    the encoder, not under the [try], and the promise still fulfils. *)
Lemma mp4_output_callback_throw_not_propagated :
  promise (runConversion convertImageToMP4 photo
             (chunkRefusingPlatform fullHD) ∅)
  = Fulfilled 1%positive.
Proof. reflexivity. Qed.

(** ** The recorder of the WebM path *)

(** On a platform where nothing fails, the recorder is started, a timer of
    1000 ms is set right after, and the next call is the [stop] made by the
    callback of that timer. *)
Lemma webm_stop_follows_timer file env σ img :
  webmClean file env img ->
  exists pre post,
    trace (runConversion convertImageToVideo file env σ) =
    pre ++ [ CaptureStream 1; NewMediaRecorder "video/webm";
             RecorderStart; SetTimeout 1000; RecorderStop ] ++ post.
Proof.
  intros Hc. destruct (webm_clean_run file env σ img Hc) as (_ & _ & ->).
  eexists [_; _; _; _], _. unfold webmCalls. reflexivity.
Qed.

(** ** More on the size computation *)

Lemma forceEven_halves (n : Z) : 0 <= n -> forceEven n = 2 * (n / 2).
Proof.
  intros Hn. unfold forceEven, JS.rem. rewrite Z.rem_mod_nonneg by lia.
  pose proof (Z.div_mod n 2 ltac:(lia)) as E.
  pose proof (Z.mod_pos_bound n 2 ltac:(lia)) as B.
  destruct (Z.eqb_spec (n mod 2) 0); lia.
Qed.

Lemma forceEven_zero (n : Z) : 0 <= n -> (forceEven n = 0 <-> n <= 1).
Proof.
  intros Hn. rewrite forceEven_halves by exact Hn.
  pose proof (Z.div_mod n 2 ltac:(lia)) as E.
  pose proof (Z.mod_pos_bound n 2 ltac:(lia)) as B. lia.
Qed.

Lemma forceEven_mono (a b : Z) :
  0 <= a -> a <= b -> forceEven a <= forceEven b.
Proof.
  intros Ha Hab. rewrite !forceEven_halves by lia.
  pose proof (Z.div_le_mono a b 2 ltac:(lia) Hab). lia.
Qed.

Lemma Math_round_div_small (a b : Z) :
  0 < b -> 0 <= a -> (JS.Math_round_div a b <= 1 <-> 2 * a < 3 * b).
Proof.
  intros Hb Ha. pose proof (Math_round_div_bounds a b Hb) as B.
  pose proof (Math_round_div_nonneg a b Hb Ha) as N. split; nia.
Qed.

Lemma Math_round_div_same (b : Z) :
  0 < b -> JS.Math_round_div (b * MAX_SIZE) b = MAX_SIZE.
Proof.
  intros Hb. pose proof (Math_round_div_bounds (b * MAX_SIZE) b Hb) as B.
  unfold MAX_SIZE in *. nia.
Qed.

(** X1.  The size computation is idempotent: an image that already has the
    computed size gets that same size again. *)
Theorem targetSize_idempotent (img : Image) :
  targetSize (resized img) = targetSize img.
Proof.
  unfold resized. rewrite (targetSize_unfold img).
  set (w := Z.of_N (img_width img)). set (h := Z.of_N (img_height img)).
  pose proof (clampLongEdge_spec w h ltac:(subst w; lia) ltac:(subst h; lia))
    as Hc.
  destruct (clampLongEdge w h) as [cw ch]. cbn [fst snd].
  destruct Hc as (Hcw & Hch & Hmw & Hmh).
  pose proof (forceEven_spec cw ltac:(lia)) as [Ew Bw].
  pose proof (forceEven_spec ch ltac:(lia)) as [Eh Bh].
  pose proof (forceEven_halves cw ltac:(lia)) as Fw.
  pose proof (forceEven_halves ch ltac:(lia)) as Fh.
  pose proof (Z.div_pos cw 2 ltac:(lia) ltac:(lia)).
  pose proof (Z.div_pos ch 2 ltac:(lia) ltac:(lia)).
  rewrite targetSize_unfold. cbn [img_width img_height].
  rewrite !Z2N.id by lia.
  unfold clampLongEdge.
  destruct (Z.gtb_spec (forceEven cw) MAX_SIZE); [lia|].
  destruct (Z.gtb_spec (forceEven ch) MAX_SIZE); [lia|].
  cbn [orb fst snd].
  now rewrite (forceEven_even (forceEven cw) Ew),
              (forceEven_even (forceEven ch) Eh).
Qed.

(** X2.  When the long edge of the image exceeds 1280, the long edge of the
    computed size is exactly 1280; otherwise each dimension is only rounded
    down to the next even number. *)
Theorem targetSize_long_edge (img : Image) :
  let w := Z.of_N (img_width img) in
  let h := Z.of_N (img_height img) in
  (MAX_SIZE < Z.max w h ->
   Z.max (targetSize img).1 (targetSize img).2 = MAX_SIZE) /\
  (Z.max w h <= MAX_SIZE ->
   targetSize img = (2 * (w / 2), 2 * (h / 2))).
Proof.
  cbv zeta. rewrite targetSize_unfold. cbn [fst snd].
  set (w := Z.of_N (img_width img)). set (h := Z.of_N (img_height img)).
  assert (0 <= w) as Hw by (subst w; lia).
  assert (0 <= h) as Hh by (subst h; lia).
  pose proof (clampLongEdge_spec w h Hw Hh) as Hc.
  unfold clampLongEdge in *. split; intros Hm.
  - destruct (Z.gtb_spec w MAX_SIZE), (Z.gtb_spec h MAX_SIZE);
      cbn [orb] in *; try lia;
      destruct (Z.gtb_spec w h); cbn [fst snd] in *; try lia;
      destruct Hc as (Hcw & Hch & Hmw & Hmh);
      change (forceEven MAX_SIZE) with MAX_SIZE;
      match goal with
      | |- context [forceEven (JS.Math_round_div ?a ?b)] =>
          pose proof (forceEven_spec (JS.Math_round_div a b) ltac:(lia))
      end; lia.
  - destruct (Z.gtb_spec w MAX_SIZE); [lia|].
    destruct (Z.gtb_spec h MAX_SIZE); [lia|].
    cbn [orb fst snd]. now rewrite !forceEven_halves.
Qed.

Lemma targetSize_long_edge_witness :
  Z.max (targetSize fullHD).1 (targetSize fullHD).2 = MAX_SIZE /\
  targetSize icon = (2 * (64 / 2), 2 * (48 / 2)).
Proof.
  split.
  - apply (targetSize_long_edge fullHD). vm_compute. reflexivity.
  - apply (targetSize_long_edge icon). vm_compute. discriminate.
Defined.

(** X3.  The size computation keeps the orientation: a portrait image gets
    a portrait size, a landscape image a landscape size, and a square image
    a square size. *)
Theorem targetSize_keeps_orientation (img : Image) :
  let w := Z.of_N (img_width img) in
  let h := Z.of_N (img_height img) in
  (w <= h -> (targetSize img).1 <= (targetSize img).2) /\
  (h <= w -> (targetSize img).2 <= (targetSize img).1).
Proof.
  cbv zeta. rewrite targetSize_unfold. cbn [fst snd].
  set (w := Z.of_N (img_width img)). set (h := Z.of_N (img_height img)).
  assert (0 <= w) as Hw by (subst w; lia).
  assert (0 <= h) as Hh by (subst h; lia).
  pose proof (clampLongEdge_spec w h Hw Hh) as Hc.
  unfold clampLongEdge in *.
  destruct (Z.gtb_spec w MAX_SIZE), (Z.gtb_spec h MAX_SIZE);
    cbn [orb] in *; destruct (Z.gtb_spec w h); cbn [fst snd] in *;
    destruct Hc as (Hcw & Hch & Hmw & Hmh).
  all: split; intros Ho; try lia.
  all: try (apply forceEven_mono; lia).
  all: assert (w = h) as <- by lia;
    rewrite Math_round_div_same by (unfold MAX_SIZE in *; lia); lia.
Qed.

Lemma targetSize_keeps_orientation_witness :
  (targetSize fullHD).2 <= (targetSize fullHD).1 /\
  (targetSize pixel).1 <= (targetSize pixel).2.
Proof.
  split.
  - apply (targetSize_keeps_orientation fullHD). vm_compute. discriminate.
  - apply (targetSize_keeps_orientation pixel). vm_compute. discriminate.
Defined.

(** X4.  The computed size has a zero dimension exactly in these cases: the
    long edge is at most 1280 and the short edge is 0 or 1; or the long
    edge exceeds 1280 and is more than 2560/3 times the short edge. *)
Theorem targetSize_zero_dimension (img : Image) :
  let w := Z.of_N (img_width img) in
  let h := Z.of_N (img_height img) in
  ((targetSize img).1 = 0 \/ (targetSize img).2 = 0) <->
  (if Z.max w h >? MAX_SIZE
   then 2560 * Z.min w h < 3 * Z.max w h
   else Z.min w h <= 1).
Proof.
  cbv zeta. rewrite targetSize_unfold. cbn [fst snd].
  set (w := Z.of_N (img_width img)). set (h := Z.of_N (img_height img)).
  assert (0 <= w) as Hw by (subst w; lia).
  assert (0 <= h) as Hh by (subst h; lia).
  unfold clampLongEdge.
  destruct (Z.gtb_spec (Z.max w h) MAX_SIZE) as [Hm|Hm];
    destruct (Z.gtb_spec w MAX_SIZE), (Z.gtb_spec h MAX_SIZE);
    cbn [orb]; try lia; destruct (Z.gtb_spec w h); cbn [fst snd]; try lia.
  all: change (forceEven MAX_SIZE) with MAX_SIZE; unfold MAX_SIZE in *.
  all: try match goal with
       | |- context [JS.Math_round_div ?a ?b] =>
           pose proof (Math_round_div_nonneg a b ltac:(lia) ltac:(lia));
           pose proof (Math_round_div_small a b ltac:(lia) ltac:(lia));
           rewrite (forceEven_zero (JS.Math_round_div a b)) by lia
       end.
  all: rewrite ?(forceEven_zero w), ?(forceEven_zero h) by lia.
  all: lia.
Qed.

(** ** More on the MP4 conversion *)

Ltac prefix_calls :=
  repeat first [ apply prefix_nil | reflexivity | apply prefix_cons
               | apply prefix_app | apply prefix_app_r ].

(** Whatever the platform does, the calls made for an image that loaded are
    an initial segment of the calls of a conversion on which nothing goes
    wrong. *)
Lemma mp4_trace_prefix file env σ img :
  load env = inr img ->
  trace (runConversion convertImageToMP4 file env σ)
  `prefix_of` mp4Calls file img (chunks env).
Proof.
  intros El. unfold runConversion, convertImageToMP4, onloadMP4, tryCatch.
  rewrite El. destruct (targetSize img) as [w h] eqn:Et.
  rewrite (mp4Calls_unfold _ _ _ _ _ Et). cbv zeta.
  exec env; exec_done.
  all: rewrite <- ?app_assoc; cbn [app]; prefix_calls.
Qed.

(** X5.  The promise of [convertImageToMP4] always settles: it is never
    left pending; it fulfils exactly when nothing goes wrong (the image
    decodes, the 2D context exists, the encoder reports no error, no call
    of the conversion throws); and when it rejects, no record has been
    created. *)
Theorem mp4_promise_always_settles
    (file : File) (env : Platform) (σ : gmap ref ConvertedVideo) :
  let r := runConversion convertImageToMP4 file env σ in
  promise r <> Pending /\
  ((exists l, promise r = Fulfilled l) <-> exists img, mp4Clean file env img) /\
  ((exists e, promise r = Rejected e) <-> forall img, ~ mp4Clean file env img) /\
  ((exists e, promise r = Rejected e) -> store r = σ).
Proof.
  cbv zeta. pose proof (mp4_outcome file env σ) as H. cbv zeta in H.
  destruct (promise (runConversion convertImageToMP4 file env σ))
    as [|l|e] eqn:Hp; [contradiction| |].
  - destruct H as (-> & Hs & img & Hc & _).
    split; [discriminate|]. split; [split; eauto|].
    split; [|intros [e He]; discriminate].
    split; [intros [e He]; discriminate|].
    intros Hn. now apply Hn in Hc.
  - destruct H as [Hs Hn].
    split; [discriminate|]. split.
    + split; [intros [l Hl]; discriminate|].
      intros [img Hc]. now apply Hn in Hc.
    + split; [|auto]. split; eauto.
Qed.

Lemma mp4_promise_always_settles_witness :
  store (runConversion convertImageToMP4 broken brokenPlatform ∅) = ∅.
Proof.
  apply (mp4_promise_always_settles broken brokenPlatform ∅).
  exists "error". reflexivity.
Defined.

(** X6.  [convertImageToMP4] never makes a call out of order: for an image
    that loaded, the calls made are an initial segment of the calls of a
    conversion on which nothing goes wrong; for an image that did not load,
    the only call is [URL.createObjectURL(file)], so no muxer, encoder,
    canvas or frame is created. *)
Theorem mp4_calls_in_order
    (file : File) (env : Platform) (σ : gmap ref ConvertedVideo) :
  match load env with
  | inr img =>
      trace (runConversion convertImageToMP4 file env σ)
      `prefix_of` mp4Calls file img (chunks env)
  | inl _ =>
      trace (runConversion convertImageToMP4 file env σ)
      = [ CreateObjectURL_file file ]
  end.
Proof.
  destruct (load env) as [e|img] eqn:El.
  - unfold runConversion, convertImageToMP4. rewrite El.
    exec env; exec_done; reflexivity.
  - now apply mp4_trace_prefix.
Qed.

Lemma mp4Calls_sizes file img n c wh :
  c ∈ mp4Calls file img n -> sizeCarried c = Some wh -> wh = targetSize img.
Proof.
  destruct (targetSize img) as [w h] eqn:Et.
  rewrite (mp4Calls_unfold _ _ _ _ _ Et). cbv zeta.
  rewrite !elem_of_app. intros [Hc | [Hc | Hc]].
  - repeat (apply elem_of_cons in Hc as [-> | Hc];
            [cbn; congruence|]).
    now apply elem_of_nil in Hc.
  - apply list_elem_of_fmap in Hc as (k & -> & _). discriminate.
  - repeat (apply elem_of_cons in Hc as [-> | Hc];
            [cbn; congruence|]).
    now apply elem_of_nil in Hc.
Qed.

(** X7.  The muxer, the configuration of the encoder, the off-screen canvas
    and the draw call always get the same size, the one the size
    computation gives for the image: no call of a conversion carries any
    other size. *)
Theorem mp4_one_size_everywhere
    (file : File) (env : Platform) (σ : gmap ref ConvertedVideo)
    (img : Image) (c : Call) (wh : Z * Z) :
  load env = inr img ->
  c ∈ trace (runConversion convertImageToMP4 file env σ) ->
  sizeCarried c = Some wh ->
  wh = targetSize img.
Proof.
  intros El Hc Hs.
  destruct (mp4_trace_prefix file env σ img El) as [rest Hr].
  eapply mp4Calls_sizes; [|exact Hs].
  rewrite Hr. apply elem_of_app. now left.
Qed.

Lemma mp4_one_size_everywhere_witness :
  (1280, 720) = targetSize fullHD.
Proof.
  apply (mp4_one_size_everywhere photo (okPlatform fullHD) ∅ fullHD
           (Configure "avc1.640028" 1280 720 2000000 1) (1280, 720)).
  - reflexivity.
  - vm_compute. in_calls.
  - reflexivity.
Defined.

Ltac split_in H :=
  repeat match type of H with
         | _ ∈ _ ++ _ => apply elem_of_app in H as [H|H]
         | _ ∈ _ :: _ => apply elem_of_cons in H as [H|H]
         | _ ∈ [] => apply elem_of_nil in H; contradiction
         | _ ∈ _ <$> _ => apply list_elem_of_fmap in H as (? & H & _)
         end.

(** X8.  A call of [convertImageToMP4] that throws is the last call the
    conversion makes, and the promise rejects with what the call threw.
    (This is about the calls the conversion makes and that return or throw
    at once: not the awaited flush, nor the calls made inside the [output]
    callback.) *)
Theorem mp4_stops_at_first_throw
    (file : File) (env : Platform) (σ : gmap ref ConvertedVideo)
    (c : Call) (e : Err) :
  c ∈ trace (runConversion convertImageToMP4 file env σ) ->
  raises env c = Some e ->
  c <> Flush -> (forall k, c <> AddVideoChunk k) ->
  last (trace (runConversion convertImageToMP4 file env σ)) = Some c /\
  promise (runConversion convertImageToMP4 file env σ) = Rejected e.
Proof.
  unfold runConversion, convertImageToMP4, onloadMP4, tryCatch.
  destruct (load env) as [e0|img] eqn:El;
    [|destruct (targetSize img) as [w h] eqn:Et].
  all: exec env; exec_done.
  all: intros Hin Hr Hf Hk; split_in Hin; subst c.
  all: try match goal with
           | H1 : raises _ ?c = None, H2 : raises _ ?c = Some _ |- _ =>
               rewrite H1 in H2; discriminate H2
           end.
  all: try (exfalso; eapply Hk; reflexivity).
  all: try (exfalso; apply Hf; reflexivity).
  all: match goal with
       | H1 : raises _ ?c = Some _, H2 : raises _ ?c = Some _ |- _ =>
           rewrite H1 in H2; injection H2 as ->
       end.
  all: split; [first [reflexivity | apply last_snoc] | reflexivity].
Qed.

Lemma mp4_stops_at_first_throw_witness :
  last (trace (runConversion convertImageToMP4 photo
                 (configureThrowsPlatform fullHD) ∅))
  = Some (Configure "avc1.640028" 1280 720 2000000 1) /\
  promise (runConversion convertImageToMP4 photo
             (configureThrowsPlatform fullHD) ∅)
  = Rejected "NotSupportedError".
Proof.
  apply (mp4_stops_at_first_throw photo (configureThrowsPlatform fullHD) ∅).
  - vm_compute. in_calls.
  - reflexivity.
  - discriminate.
  - discriminate.
Defined.

(** X9.  A frame whose [encode] call throws is never closed: the call of
    [close] stands after [encode] in the [try] block, not in a [finally]. *)
Theorem mp4_frame_left_open_when_encode_throws
    (file : File) (env : Platform) (σ : gmap ref ConvertedVideo)
    (f : VideoFrame) (k : bool) (e : Err) :
  Encode f k ∈ trace (runConversion convertImageToMP4 file env σ) ->
  raises env (Encode f k) = Some e ->
  CloseFrame f ∉ trace (runConversion convertImageToMP4 file env σ).
Proof.
  unfold runConversion, convertImageToMP4, onloadMP4, tryCatch.
  destruct (load env) as [e0|img] eqn:El;
    [|destruct (targetSize img) as [w h] eqn:Et].
  all: exec env; exec_done.
  all: rewrite ?app_nil_l in *.
  all: intros Hin Hr Hc; split_in Hin; try discriminate Hin.
  all: injection Hin as -> ->.
  all: try match goal with
           | H1 : raises _ ?c = None, H2 : raises _ ?c = Some _ |- _ =>
               rewrite H1 in H2; discriminate H2
           end.
  all: split_in Hc; discriminate Hc.
Qed.

Lemma mp4_frame_left_open_when_encode_throws_witness :
  CloseFrame (firstFrame fullHD)
  ∉ trace (runConversion convertImageToMP4 photo
             (encodeThrowsPlatform fullHD) ∅).
Proof.
  apply (mp4_frame_left_open_when_encode_throws photo
           (encodeThrowsPlatform fullHD) ∅ (firstFrame fullHD) true
           "InvalidStateError").
  - vm_compute. in_calls.
  - reflexivity.
Defined.

(** X10.  When the encoder reports an error while the conversion waits for
    the flush (everything before having gone through), the promise rejects
    with that error, no record is created, and the conversion stops there:
    the muxer is not finalized, no blob and no object URL are made. *)
Theorem mp4_encoder_error_rejects
    (file : File) (env : Platform) (σ : gmap ref ConvertedVideo)
    (img : Image) (e : Err) :
  load env = inr img -> context2d env = true ->
  (forall c, c ∈ mp4Calls file img 0 -> raises env c = None) ->
  encoderError env = Some e ->
  let r := runConversion convertImageToMP4 file env σ in
  promise r = Rejected e /\ store r = σ /\
  trace r ++ [ Finalize; NewBlob "video/mp4"; MathRandom;
               CreateObjectURL_blob ]
  = mp4Calls file img (chunks env).
Proof.
  intros El Hctx Hr He. cbv zeta.
  unfold runConversion, convertImageToMP4, onloadMP4, tryCatch.
  rewrite El. destruct (targetSize img) as [w h] eqn:Et.
  rewrite (mp4Calls_unfold _ _ _ _ _ Et). cbv zeta.
  exec env; exec_done.
  all: try discriminate Hctx.
  all: try discriminate He.
  all: try match goal with
           | E : raises _ ?c = Some _ |- _ =>
               rewrite (Hr c) in E;
               [ discriminate
               | rewrite (mp4Calls_unfold _ _ _ _ _ Et); cbv zeta;
                 cbn [app]; in_calls ]
           end.
  injection He as ->.
  split; [reflexivity|]. split; [reflexivity|].
  now rewrite <- !app_assoc.
Qed.

Lemma mp4_encoder_error_rejects_witness :
  promise (runConversion convertImageToMP4 photo
             (encoderErrorPlatform fullHD) ∅)
  = Rejected "EncodingError".
Proof.
  apply (mp4_encoder_error_rejects photo (encoderErrorPlatform fullHD) ∅
           fullHD "EncodingError"); reflexivity.
Defined.

(** ** More on the WebM conversion *)

Lemma webm_trace_prefix file env σ img :
  load env = inr img ->
  trace (runConversion convertImageToVideo file env σ)
  `prefix_of` webmCalls file img (chunks env).
Proof.
  intros El. unfold runConversion, convertImageToVideo, onloadWebM, onstop.
  rewrite El. unfold webmCalls.
  exec env; exec_done.
  all: rewrite <- ?app_assoc; cbn [app]; prefix_calls.
Qed.

(** X11.  How the promise of [convertImageToVideo] ends: it fulfils exactly
    when nothing goes wrong; it rejects exactly when
    [URL.createObjectURL(file)] throws inside the executor, with what that
    call threw; in every other case it stays pending.  It never rejects
    for an image that does not decode or for a failure of the recorder. *)
Theorem webm_promise_settlement
    (file : File) (env : Platform) (σ : gmap ref ConvertedVideo) :
  let r := runConversion convertImageToVideo file env σ in
  ((exists l, promise r = Fulfilled l) <-> exists img, webmClean file env img) /\
  (forall e, promise r = Rejected e <->
             raises env (CreateObjectURL_file file) = Some e) /\
  (promise r = Pending <->
   raises env (CreateObjectURL_file file) = None /\
   forall img, ~ webmClean file env img).
Proof.
  cbv zeta. pose proof (webm_outcome file env σ) as H. cbv zeta in H.
  assert (forall img, webmClean file env img ->
            raises env (CreateObjectURL_file file) = None) as Hurl.
  { intros img (_ & _ & _ & Hr). apply Hr. unfold webmCalls. cbn [app].
    in_calls. }
  destruct (promise (runConversion convertImageToVideo file env σ))
    as [|l|e] eqn:Hp.
  - destruct H as (Hs & Hu & Hn). split; [|split].
    + split; [intros [l Hl]; discriminate|].
      intros [img Hc]. now apply Hn in Hc.
    + intros e. split; [discriminate|]. intros He. rewrite Hu in He.
      discriminate.
    + split; auto.
  - destruct H as (-> & Hs & img & Hc & _). split; [|split].
    + split; eauto.
    + intros e. split; [discriminate|]. intros He.
      rewrite (Hurl img Hc) in He. discriminate.
    + split; [discriminate|]. intros [_ Hn]. now apply Hn in Hc.
  - destruct H as [Hs Hu]. split; [|split].
    + split; [intros [l Hl]; discriminate|].
      intros [img Hc]. rewrite (Hurl img Hc) in Hu. discriminate.
    + intros e'. split.
      * intros [= <-]. exact Hu.
      * intros He. rewrite Hu in He. now injection He as ->.
    + split; [discriminate|]. intros [Hn _]. rewrite Hu in Hn. discriminate.
Qed.

(** X12.  [convertImageToVideo] never makes a call out of order: for an
    image that loaded, the calls made are an initial segment of the calls
    of a conversion on which nothing goes wrong, so the recorder is never
    stopped before it was started and the timer set; for an image that did
    not load, the only call is [URL.createObjectURL(file)]: the canvas is
    not touched and no recorder is made. *)
Theorem webm_calls_in_order
    (file : File) (env : Platform) (σ : gmap ref ConvertedVideo) :
  match load env with
  | inr img =>
      trace (runConversion convertImageToVideo file env σ)
      `prefix_of` webmCalls file img (chunks env)
  | inl _ =>
      trace (runConversion convertImageToVideo file env σ)
      = [ CreateObjectURL_file file ]
  end.
Proof.
  destruct (load env) as [e|img] eqn:El.
  - unfold runConversion, convertImageToVideo. rewrite El.
    exec env; exec_done; reflexivity.
  - now apply webm_trace_prefix.
Qed.

(** X13.  The WebM path does not resize: when the image loads and the
    canvas and its context exist, and the calls up to the draw go through,
    the canvas has the width and the height of the image, whatever they
    are (odd, or above 1280), and holds one draw of the image at the
    origin in its own size. *)
Theorem webm_canvas_has_image_size
    (file : File) (env : Platform) (σ : gmap ref ConvertedVideo) (img : Image) :
  load env = inr img -> canvasMounted env = true -> context2d env = true ->
  raises env (CreateObjectURL_file file) = None ->
  raises env (SetCanvasSize (Z.of_N (img_width img))
                            (Z.of_N (img_height img))) = None ->
  raises env (GetContext "2d") = None ->
  raises env (DrawImage {| drawn := img; dx := 0; dy := 0; dsize := None |})
  = None ->
  canvas (runConversion convertImageToVideo file env σ) =
  {| cv_width := Z.of_N (img_width img);
     cv_height := Z.of_N (img_height img);
     cv_draws := [ {| drawn := img; dx := 0; dy := 0; dsize := None |} ] |}.
Proof.
  intros El Hm Hc H1 H2 H3 H4.
  unfold runConversion, convertImageToVideo, onloadWebM, onstop.
  rewrite El.
  exec env; exec_done.
  all: try discriminate Hm; try discriminate Hc; try discriminate H1;
    try discriminate H2; try discriminate H3; try discriminate H4.
  all: reflexivity.
Qed.

Lemma webm_canvas_has_image_size_witness :
  canvas (runConversion convertImageToVideo photo (okPlatform fullHD) ∅) =
  {| cv_width := 1920; cv_height := 1080;
     cv_draws := [ {| drawn := fullHD; dx := 0; dy := 0; dsize := None |} ] |}.
Proof.
  apply (webm_canvas_has_image_size photo (okPlatform fullHD) ∅ fullHD);
    reflexivity.
Defined.

(** ** More on the upload, for any converter *)

Lemma entries_resolve (w : World) (refs : list ref) (vs : list ConvertedVideo) :
  entries w refs = Some <$> vs ->
  forall l, l ∈ refs -> is_Some (objects w !! l).
Proof.
  unfold entries. revert vs.
  induction refs as [|r refs IH]; intros vs Hv l Hl.
  - now apply elem_of_nil in Hl.
  - destruct vs as [|v vs]; [discriminate|]. rewrite !fmap_cons in Hv.
    injection Hv as Hr Hrest.
    apply elem_of_cons in Hl as [-> | Hl]; [now rewrite Hr | eauto].
Qed.

Lemma entries_entryOf record (files : list (File * Platform)) :
  entryOf record <$> files = Some <$> ((fun fe => record fe.1 fe.2) <$> files).
Proof. now rewrite <- list_fmap_compose. Qed.

Lemma entries_grow (w w' : World) (refs : list ref) :
  objects w ⊆ objects w' ->
  (forall l, l ∈ refs -> is_Some (objects w !! l)) ->
  entries w' refs = entries w refs.
Proof.
  intros Hsub Hwf. unfold entries. apply list_fmap_ext.
  intros i l Hl. destruct (Hwf l) as [v Hv].
  { eapply list_elem_of_lookup_2; eauto. }
  rewrite Hv. eapply lookup_weaken; eauto.
Qed.

Section UploadFacts.

Context (convert : Converter).
Context (record : File -> Platform -> ConvertedVideo).
Context (clean : File -> Platform -> Prop).

Hypothesis convert_cases : forall file env (σ : gmap ref ConvertedVideo),
  let r := runConversion convert file env σ in
  (clean file env /\ promise r = Fulfilled (fresh (dom σ)) /\
   store r = <[fresh (dom σ) := record file env]> σ)
  \/
  (~ clean file env /\ (forall l, promise r <> Fulfilled l) /\ store r = σ).

(** All files convert: the call returns and the list grows in front. *)
Lemma upload_success files w :
  Forall (onFile clean) files ->
  exists news w',
    handleFileUploadWith convert (Some files) w = (w', Returned) /\
    videos (app w') = news ++ videos (app w) /\
    isProcessing (app w') = false /\
    length news = length files /\
    entries w' news = entryOf record <$> files /\
    NoDup news /\
    (forall l, l ∈ news -> objects w !! l = None) /\
    objects w ⊆ objects w'.
Proof.
  intros Hall. unfold handleFileUploadWith.
  destruct (convertEach_spec convert record clean convert_cases files []
              (setIsProcessing true w))
    as (added & w' & c & He & Ha & Hf & Hen & Hsub & Hnd & Hnew & Hsz & Hc).
  rewrite He. cbn [app].
  assert (c = Returned) as ->.
  { destruct c as [|e|]; [reflexivity | exfalso | exfalso];
      destruct Hc as (fe & Hl & Hn & _); apply Hn;
      exact (Forall_lookup_1 _ _ _ _ Hall Hl). }
  exists added,
    (setIsProcessing false (setVideos (fun prev => added ++ prev) w')).
  rewrite Hc, firstn_all in Hen.
  repeat split; try assumption. cbn. now rewrite Ha.
Qed.

(** Some file does not convert: the call does not return, the list is
    left as it was and the flag stays set. *)
Lemma upload_failure before fe after w :
  Forall (onFile clean) before -> ~ onFile clean fe ->
  exists w' c,
    handleFileUploadWith convert (Some (before ++ fe :: after)) w = (w', c) /\
    match c with
    | Returned => False
    | Thrown e =>
        promise (runConversion convert fe.1 fe.2 (objects w')) = Rejected e
    | Suspended =>
        promise (runConversion convert fe.1 fe.2 (objects w')) = Pending
    end /\
    videos (app w') = videos (app w) /\
    isProcessing (app w') = true /\
    objects w ⊆ objects w' /\
    size (objects w') = (size (objects w) + length before)%nat.
Proof.
  intros Hb Hfe. unfold handleFileUploadWith.
  destruct (convertEach_spec convert record clean convert_cases
              (before ++ fe :: after) [] (setIsProcessing true w))
    as (added & w' & c & He & Ha & Hf & Hen & Hsub & Hnd & Hnew & Hsz & Hc).
  rewrite He. cbn [app].
  destruct c as [|e|].
  - exfalso. rewrite Hc, firstn_all in Hf.
    apply Forall_app in Hf as [_ Hf]. apply Forall_cons in Hf as [Hf _].
    contradiction.
  - destruct Hc as (fe' & Hl & Hn & Hp).
    assert (length added = length before) as Hk
      by exact (first_failure_index _ before after fe _ fe' Hb Hfe Hf Hl Hn).
    rewrite Hk, list_lookup_middle in Hl by reflexivity.
    injection Hl as <-.
    exists w', (Thrown e). rewrite Ha, <- Hk. repeat split; assumption.
  - destruct Hc as (fe' & Hl & Hn & Hp).
    assert (length added = length before) as Hk
      by exact (first_failure_index _ before after fe _ fe' Hb Hfe Hf Hl Hn).
    rewrite Hk, list_lookup_middle in Hl by reflexivity.
    injection Hl as <-.
    exists w', Suspended. rewrite Ha, <- Hk. repeat split; assumption.
Qed.

(** Every entry of the list stands for a record, before and after. *)
Lemma upload_keeps_wellFormed files w :
  wellFormed w -> wellFormed (handleFileUploadWith convert files w).1.
Proof.
  intros Hwf. destruct files as [files|]; [|exact Hwf].
  unfold handleFileUploadWith.
  destruct (convertEach_spec convert record clean convert_cases files []
              (setIsProcessing true w))
    as (added & w' & c & He & Ha & Hf & Hen & Hsub & Hnd & Hnew & Hsz & Hc).
  rewrite He. cbn [app].
  assert (forall l, l ∈ videos (app w) -> is_Some (objects w' !! l)) as Hold.
  { intros l Hl. destruct (Hwf l Hl) as [v Hv]. exists v.
    eapply lookup_weaken; eauto. }
  destruct c as [|e|]; cbn [fst]; intros l Hl.
  - cbn in Hl. rewrite Ha in Hl. cbn in Hl.
    apply elem_of_app in Hl as [Hl | Hl]; [|now apply Hold].
    rewrite entries_entryOf in Hen.
    eapply entries_resolve; eauto.
  - rewrite Ha in Hl. now apply Hold.
  - rewrite Ha in Hl. now apply Hold.
Qed.

End UploadFacts.

(** ** More on [handleFileUpload] *)

Lemma mp4_not_clean_fails fe :
  ~ onFile mp4CleanFile fe -> failsToConvert convertImageToMP4 fe.
Proof.
  destruct fe as [file env]. unfold onFile. cbn [fst snd].
  intros Hn σ. apply mp4_failure_rejects.
  intros img Hc. apply Hn. now exists img.
Qed.

Lemma mp4_all_clean files :
  Forall (converts convertImageToMP4) files ->
  Forall (onFile mp4CleanFile) files.
Proof.
  intros H. eapply Forall_impl; [exact H|].
  intros fe. apply mp4_converts_clean.
Qed.

(** X14.  A call of [handleFileUpload] with a file list never hangs: it
    returns or it throws.  It returns exactly when every file converts,
    and then the processing flag is cleared and the result list has grown
    by the number of files; it throws when some file fails to convert,
    and then the flag stays set and the result list is what it was. *)
Theorem upload_returns_or_throws (files : list (File * Platform)) (w : World) :
  match handleFileUpload (Some files) w with
  | (w', Returned) =>
      Forall (converts convertImageToMP4) files /\
      isProcessing (app w') = false /\
      length (videos (app w')) = (length files + length (videos (app w)))%nat
  | (w', Thrown e) =>
      Exists (failsToConvert convertImageToMP4) files /\
      isProcessing (app w') = true /\
      videos (app w') = videos (app w)
  | (w', Suspended) => False
  end.
Proof.
  unfold handleFileUpload, handleFileUploadWith.
  destruct (mp4_upload_loop files [] (setIsProcessing true w))
    as (added & w' & c & He & Ha & Hf & Hen & Hsub & Hnd & Hnew & Hsz & Hc).
  rewrite He. cbn [app]. destruct c as [|e|]; [| |contradiction].
  - rewrite Hc, firstn_all in Hf. split; [|split].
    + eapply Forall_impl; [exact Hf|]. intros fe. apply mp4_converts_clean.
    + reflexivity.
    + cbn. rewrite Ha. cbn. rewrite length_app. lia.
  - destruct Hc as (fe & Hl & Hn & _). split; [|now rewrite Ha].
    apply Exists_exists. exists fe. split.
    + eapply list_elem_of_lookup_2; eauto.
    + now apply mp4_not_clean_fails.
Qed.

(** X15.  Two uploads in a row, each of files that all convert: the list
    then holds the entries of the second upload, then those of the first,
    then the ones that were there before; all the new entries are distinct
    records, and the records of the first upload are unchanged by the
    second. *)
Theorem two_uploads_newest_first
    (files1 files2 : list (File * Platform)) (w : World) :
  Forall (converts convertImageToMP4) files1 ->
  Forall (converts convertImageToMP4) files2 ->
  exists news1 news2 w1 w2,
    handleFileUpload (Some files1) w = (w1, Returned) /\
    handleFileUpload (Some files2) w1 = (w2, Returned) /\
    videos (app w2) = news2 ++ news1 ++ videos (app w) /\
    entries w2 news1 = entryOf mp4Record <$> files1 /\
    entries w2 news2 = entryOf mp4Record <$> files2 /\
    NoDup (news2 ++ news1).
Proof.
  intros H1 H2. apply mp4_all_clean in H1, H2.
  destruct (upload_success convertImageToMP4 mp4Record mp4CleanFile
              mp4_convert_cases files1 w H1)
    as (news1 & w1 & E1 & V1 & _ & _ & En1 & Nd1 & _ & _).
  destruct (upload_success convertImageToMP4 mp4Record mp4CleanFile
              mp4_convert_cases files2 w1 H2)
    as (news2 & w2 & E2 & V2 & _ & _ & En2 & Nd2 & New2 & Sub2).
  exists news1, news2, w1, w2.
  assert (forall l, l ∈ news1 -> is_Some (objects w1 !! l)) as Hres.
  { rewrite entries_entryOf in En1. eapply entries_resolve; eauto. }
  repeat split; try assumption.
  - now rewrite V2, V1.
  - rewrite (entries_grow w1 w2 news1 Sub2 Hres). exact En1.
  - apply NoDup_app. repeat split; try assumption.
    intros l Hl2 Hl1. apply New2 in Hl2. destruct (Hres l Hl1) as [v Hv].
    congruence.
Qed.

Lemma two_uploads_newest_first_witness :
  exists news1 news2 : list ref, exists w2 : World,
    videos (app w2) = news2 ++ news1 ++ [] /\ NoDup (news2 ++ news1).
Proof.
  destruct (two_uploads_newest_first goodBatch goodBatch emptyWorld
              goodBatch_converts goodBatch_converts)
    as (news1 & news2 & w1 & w2 & _ & _ & H & _ & _ & Hn).
  exists news1, news2, w2. auto.
Defined.

(** X16.  [handleFileUpload] keeps the result list sound: when every entry
    of the list stands for a record before the call, so does every entry
    after it, whatever the files and whatever the platform does. *)
Theorem upload_keeps_list_sound
    (files : option (list (File * Platform))) (w : World) :
  wellFormed w -> wellFormed (handleFileUpload files w).1.
Proof.
  apply (upload_keeps_wellFormed convertImageToMP4 mp4Record mp4CleanFile
           mp4_convert_cases).
Qed.

Lemma upload_keeps_list_sound_witness :
  wellFormed (handleFileUpload (Some badBatch) emptyWorld).1.
Proof.
  apply upload_keeps_list_sound.
  intros l Hl. cbn in Hl. now apply elem_of_nil in Hl.
Defined.

Lemma render_new (w : World) (refs : list ref) (vs : list ConvertedVideo) :
  entries w refs = Some <$> vs ->
  omap (fun l => renderCard <$> objects w !! l) refs = renderCard <$> vs.
Proof.
  unfold entries. revert vs.
  induction refs as [|r refs IH]; intros [|v vs] Hv;
    try discriminate; [reflexivity|].
  rewrite !fmap_cons in Hv. injection Hv as Hr Hrest.
  cbn. rewrite Hr. cbn. f_equal. now apply IH.
Qed.

Lemma render_old (w w' : World) (refs : list ref) :
  objects w ⊆ objects w' ->
  (forall l, l ∈ refs -> is_Some (objects w !! l)) ->
  omap (fun l => renderCard <$> objects w' !! l) refs =
  omap (fun l => renderCard <$> objects w !! l) refs.
Proof.
  intros Hsub. induction refs as [|r refs IH]; intros Hwf; [reflexivity|].
  destruct (Hwf r) as [v Hv]; [apply list_elem_of_here|].
  cbn. rewrite Hv, (lookup_weaken _ _ _ _ Hv Hsub). cbn. f_equal.
  apply IH. intros l Hl. apply Hwf. now apply list_elem_of_further.
Qed.

(** X17.  After an upload of files that all convert, the gallery shows one
    card for each file, in the order of the files, in front of the cards
    it showed before, which are unchanged.  (The list is taken to be
    sound: every entry stands for a record.) *)
Theorem gallery_after_upload (files : list (File * Platform)) (w : World) :
  Forall (converts convertImageToMP4) files ->
  wellFormed w ->
  render (handleFileUpload (Some files) w).1 = (mp4Card <$> files) ++ render w.
Proof.
  intros Hall Hwf. apply mp4_all_clean in Hall.
  destruct (upload_success convertImageToMP4 mp4Record mp4CleanFile
              mp4_convert_cases files w Hall)
    as (news & w' & E & V & _ & _ & En & _ & _ & Sub).
  unfold handleFileUpload. rewrite E. cbn [fst]. unfold render. rewrite V.
  rewrite omap_app. f_equal.
  - rewrite entries_entryOf in En. rewrite (render_new _ _ _ En).
    now rewrite <- list_fmap_compose.
  - now apply render_old.
Qed.

Lemma gallery_after_upload_witness :
  render (handleFileUpload (Some goodBatch) emptyWorld).1
  = (mp4Card <$> goodBatch) ++ [].
Proof.
  apply (gallery_after_upload goodBatch emptyWorld goodBatch_converts).
  intros l Hl. cbn in Hl. now apply elem_of_nil in Hl.
Defined.

(** ** The variant that converts with the WebM path *)

Lemma webm_converts_clean fe :
  converts convertImageToVideo fe <-> onFile webmCleanFile fe.
Proof.
  destruct fe as [file env]. unfold converts, onFile. cbn [fst snd]. split.
  - intros H. destruct (H ∅) as [l Hl].
    destruct (webm_convert_cases file env ∅) as [(Hc & _) | (_ & Hn & _)];
      [exact Hc | now destruct (Hn l)].
  - intros Hc σ.
    destruct (webm_convert_cases file env σ) as [(_ & Hp & _) | (Hn & _)];
      [eauto | contradiction].
Qed.

Lemma okPlatform_converts_webm file img :
  converts convertImageToVideo (file, okPlatform img).
Proof.
  apply webm_converts_clean. exists img. apply okPlatform_webmClean.
Qed.

Lemma brokenPlatform_staysPending file :
  staysPending convertImageToVideo (file, brokenPlatform).
Proof.
  intros σ. cbn [fst snd].
  pose proof (webm_outcome file brokenPlatform σ) as H. cbv zeta in H.
  destruct (promise (runConversion convertImageToVideo file brokenPlatform σ))
    as [|l|e]; [reflexivity | exfalso | exfalso].
  - destruct H as (_ & _ & img & (Hl & _) & _). discriminate Hl.
  - destruct H as [_ H]. discriminate H.
Qed.

(** X18.  In the variant that converts with the WebM path, an upload of N
    files that all convert adds exactly N entries in front of the result
    list, in the order of the files, with the names ending in [.webm], and
    clears the processing flag. *)
Theorem webm_upload_prepends_new_entries
    (files : list (File * Platform)) (w : World) :
  Forall (converts convertImageToVideo) files ->
  exists news w',
    handleFileUpload_webm (Some files) w = (w', Returned) /\
    videos (app w') = news ++ videos (app w) /\
    isProcessing (app w') = false /\
    length news = length files /\
    entries w' news = entryOf webmRecord <$> files /\
    NoDup news.
Proof.
  intros Hall.
  assert (Forall (onFile webmCleanFile) files) as Hc.
  { eapply Forall_impl; [exact Hall|]. intros fe. apply webm_converts_clean. }
  destruct (upload_success convertImageToVideo webmRecord webmCleanFile
              webm_convert_cases files w Hc)
    as (news & w' & E & V & P & L & En & Nd & _ & _).
  exists news, w'. repeat split; assumption.
Qed.

Lemma webm_upload_prepends_new_entries_witness :
  exists news w',
    handleFileUpload_webm (Some goodBatch) emptyWorld = (w', Returned) /\
    videos (app w') = news ++ [] /\ length news = 2%nat.
Proof.
  destruct (webm_upload_prepends_new_entries goodBatch emptyWorld)
    as (news & w' & E & V & _ & L & _).
  { repeat constructor; apply okPlatform_converts_webm. }
  exists news, w'. repeat split; assumption.
Defined.

(** X19.  In the variant that converts with the WebM path, a file whose
    conversion never settles (an image that does not decode, say) makes the
    whole upload hang: the call neither returns nor throws, the result
    list keeps its old contents although the files before converted, the
    processing flag stays set, and the files after it are never
    converted. *)
Theorem webm_upload_hangs_on_failure
    (before after : list (File * Platform)) (fe : File * Platform) (w : World) :
  Forall (converts convertImageToVideo) before ->
  staysPending convertImageToVideo fe ->
  exists w',
    handleFileUpload_webm (Some (before ++ fe :: after)) w = (w', Suspended) /\
    videos (app w') = videos (app w) /\
    isProcessing (app w') = true /\
    size (objects w') = (size (objects w) + length before)%nat.
Proof.
  intros Hb Hp.
  assert (Forall (onFile webmCleanFile) before) as Hb'.
  { eapply Forall_impl; [exact Hb|]. intros x. apply webm_converts_clean. }
  assert (~ onFile webmCleanFile fe) as Hfe.
  { intros Hc. apply webm_converts_clean in Hc.
    destruct (Hc ∅) as [l Hl]. rewrite (Hp ∅) in Hl. discriminate. }
  destruct (upload_failure convertImageToVideo webmRecord webmCleanFile
              webm_convert_cases before fe after w Hb' Hfe)
    as (w' & c & E & Hc & V & P & _ & Sz).
  destruct c as [|e|]; [contradiction | |].
  - rewrite (Hp (objects w')) in Hc. discriminate.
  - exists w'. repeat split; assumption.
Qed.

Lemma webm_upload_hangs_on_failure_witness :
  exists w',
    handleFileUpload_webm (Some badBatch) emptyWorld = (w', Suspended) /\
    videos (app w') = [] /\ isProcessing (app w') = true.
Proof.
  destruct (webm_upload_hangs_on_failure
              [ (photo, okPlatform fullHD) ] [ (scan, okPlatform icon) ]
              (broken, brokenPlatform) emptyWorld)
    as (w' & E & V & P & _).
  - repeat constructor; apply okPlatform_converts_webm.
  - apply brokenPlatform_staysPending.
  - exists w'. repeat split; assumption.
Defined.

(** ** More on the result name *)

Lemma splitLastDot_trailing (n : string) :
  NameSpec.splitLastDot (n +:+ ".") = Some (n, EmptyString).
Proof.
  induction n as [|c n IH]; [reflexivity|].
  change (String c n +:+ ".") with (String c (n +:+ ".")).
  cbn [NameSpec.splitLastDot]. now rewrite IH.
Qed.

(** X20.  A name of the form [base.ext], where [ext] is not empty and holds
    neither a dot nor a slash, gets the result name [base] followed by the
    new extension: only the last extension is replaced, whatever [base]
    holds (other dots included). *)
Theorem result_name_replaces_last_extension (base ext newExt : string) :
  ext <> EmptyString -> RegExp.restOfExtension ext = true ->
  resultName (base +:+ String "." ext) newExt = (base +:+ newExt).
Proof.
  intros Hne Hext. unfold resultName.
  now rewrite replaceExtension_cut.
Qed.

Lemma result_name_replaces_last_extension_witness :
  resultName "holiday.2024.tar.jpeg" ".mp4" = "holiday.2024.tar.mp4".
Proof.
  apply (result_name_replaces_last_extension "holiday.2024.tar" "jpeg" ".mp4").
  - discriminate.
  - reflexivity.
Defined.

(** X21.  A name without an extension is kept whole, and the new extension
    is appended to it: this is so for a name that holds no dot, and for a
    name that ends with a dot (the dot stays, so two dots follow each
    other in the result). *)
Theorem result_name_keeps_name_without_extension (n newExt : string) :
  (NameSpec.splitLastDot n = None -> resultName n newExt = (n +:+ newExt)) /\
  resultName (n +:+ ".") newExt = ((n +:+ ".") +:+ newExt).
Proof.
  unfold resultName. rewrite !replaceExtension_strips_final_extension.
  unfold NameSpec.stripFinalExtension. split.
  - now intros ->.
  - now rewrite splitLastDot_trailing.
Qed.

Lemma result_name_keeps_name_without_extension_witness :
  resultName "README" ".webm" = "README.webm" /\
  resultName "draft." ".webm" = "draft..webm".
Proof.
  split.
  - apply (result_name_keeps_name_without_extension "README" ".webm").
    reflexivity.
  - apply (result_name_keeps_name_without_extension "draft" ".webm").
Defined.

(** X22.  Extensions do not pile up: the result name of a result name is
    the result name of the original, for the two extensions the
    conversions append. *)
Theorem result_name_of_result_name (n : string) :
  resultName (resultName n ".mp4") ".mp4" = resultName n ".mp4" /\
  resultName (resultName n ".webm") ".webm" = resultName n ".webm" /\
  resultName (resultName n ".mp4") ".webm" = resultName n ".webm" /\
  resultName (resultName n ".webm") ".mp4" = resultName n ".mp4".
Proof.
  unfold resultName.
  change ".mp4"%string with (String "." "mp4").
  change ".webm"%string with (String "." "webm").
  repeat split; now rewrite replaceExtension_cut.
Qed.

(** X23.  The pattern only ever cuts a tail off the name: the kept part is
    an initial segment of the name, and what is cut is nothing or starts
    with a dot. *)
Theorem replaceExtension_cuts_a_tail (n : string) :
  exists tail,
    n = (RegExp.replaceExtension n +:+ tail) /\
    (tail = EmptyString \/ exists ext, tail = String "." ext).
Proof.
  induction n as [|c r (tail & Hr & Ht)].
  - exists EmptyString. split; [reflexivity | now left].
  - cbn [RegExp.replaceExtension].
    destruct (RegExp.matchesHere (String c r)) eqn:Em.
    + exists (String c r). split; [reflexivity|]. right.
      destruct r as [|c' r']; [discriminate|]. cbn in Em.
      apply andb_true_iff in Em as [Em _].
      apply andb_true_iff in Em as [Em _].
      apply Ascii.eqb_eq in Em. subst c. now eexists.
    + exists tail. split; [|exact Ht].
      change (String c (RegExp.replaceExtension r) +:+ tail)
        with (String c (RegExp.replaceExtension r +:+ tail)).
      now rewrite <- Hr.
Qed.
